(** * The stdio JSON-RPC server of mcp-servers/langchain/mcp_server.py

    A shallow embedding of [McpServer]: the method registry, the four
    handlers ([list_tools], [invoke_tool], [ping], [shutdown]), the
    handshake and the read loop, together with the properties of the
    dispatch engine.

    Python objects that travel through the server are the values produced by
    [json.loads]: [None], booleans, integers, floats, strings, lists and
    dictionaries.  Exceptions are explicit: a computation returns a value or
    raises.  Standard input is the sequence of results of the successive
    [readline] calls; everything the server does to the outside world is
    recorded, in order, in a trace of events. *)

From Stdlib Require Import ZArith List String Ascii Bool Lia DecimalString.
From Stdlib Require Import Floats.SpecFloat.
Import ListNotations.

Local Open Scope string_scope.
Local Open Scope list_scope.

(** ** Python values *)

(** A Python [float] is an IEEE 754 binary64 number. *)
Definition prec : Z := 53.
Definition emax : Z := 1024.

Definition float_add : spec_float -> spec_float -> spec_float := SFadd prec emax.

(** [float(n)] on an [int] rounds to the nearest double, ties to even; a
    result out of range is reported by the caller as [OverflowError]. *)
Definition float_of_int (n : Z) : spec_float := binary_normalize prec emax n 0 false.

(** The objects [json.loads] builds.  A [dict] keeps its items in insertion
    order; its keys are strings. *)
#[warnings="-register-all"]
Inductive json : Type :=
| JNull
| JBool (b : bool)
| JInt (n : Z)
| JFloat (f : spec_float)
| JStr (s : string)
| JArr (items : list json)
| JObj (items : list (string * json)).

Definition dict := list (string * json).

Fixpoint dict_get (k : string) (d : dict) : option json :=
  match d with
  | [] => None
  | (k', v) :: d' => if String.eqb k k' then Some v else dict_get k d'
  end.

Definition dict_keys (d : dict) : list string := map fst d.

Definition has_key (k : string) (d : dict) : bool :=
  existsb (String.eqb k) (dict_keys d).

(** [v == s] for a string literal [s]. *)
Definition eq_str (v : json) (s : string) : bool :=
  match v with
  | JStr t => String.eqb t s
  | _ => false
  end.

(** ** Exceptions *)

(** [JsonRpcError] is the class the module declares for JSON-RPC errors; the
    others are raised by the interpreter, by [json.loads] or by the chat
    backend. *)
Inductive exn : Type :=
| JsonRpcError (code : Z) (message : string) (data : json)
| JSONDecodeError
| AttributeError
| TypeError
| ValueError
| OverflowError
| BackendError (description : string).

Definition is_declared (e : exn) : bool :=
  match e with
  | JsonRpcError _ _ _ => true
  | _ => false
  end.

Inductive result (A : Type) : Type :=
| Return (a : A)
| Raise (e : exn).
Arguments Return {A} a.
Arguments Raise {A} e.

Definition bind {A B : Type} (r : result A) (k : A -> result B) : result B :=
  match r with
  | Return a => k a
  | Raise e => Raise e
  end.

Declare Scope py_scope.
Delimit Scope py_scope with py.
Notation "x <- r ;; k" := (bind r (fun x => k))
  (at level 61, r at next level, right associativity) : py_scope.
Local Open Scope py_scope.

(** [v.get(k, default)]: only a [dict] has the attribute [get]. *)
Definition py_get (v : json) (k : string) (default : json) : result json :=
  match v with
  | JObj d => Return (match dict_get k d with Some x => x | None => default end)
  | _ => Raise AttributeError
  end.

(** [for x in v]: lists yield their items, dictionaries their keys, strings
    their characters; nothing else is iterable. *)
Definition py_iter (v : json) : result (list json) :=
  match v with
  | JArr l => Return l
  | JObj d => Return (map JStr (dict_keys d))
  | JStr s => Return (map (fun c => JStr (String c "")) (list_ascii_of_string s))
  | _ => Raise TypeError
  end.

(** ** What the server takes from outside the repository *)

Inductive lc_message : Type :=
| SystemMessage (content : json)
| AIMessage (content : json)
| HumanMessage (content : json).

(** The library functions and the collaborator the module calls.
    - [json_loads]: [json.loads] on one line of input;
    - [py_repr]: [str()] of a float, a list or a dictionary;
    - [float_of_str]: [float()] of a string, [None] for [ValueError];
    - [message_fault]: the fault, if any, with which a LangChain message
      constructor rejects its content;
    - [agenerate]: the chat model; the first argument counts the calls made
      before this one, the result is the text of the first generation;
    - [ollama_fault]: what the connectivity check of the constructor
      raises, if anything. *)
Record Runtime : Type := {
  json_loads : string -> result json;
  py_repr : json -> string;
  float_of_str : string -> option spec_float;
  message_fault : lc_message -> option exn;
  agenerate : nat -> list lc_message -> result string;
  ollama_fault : option exn
}.

(** ** The server object and the world around it *)

Record McpServer : Type := { _shutdown_requested : bool }.

Inductive event : Type :=
| Read (raw : string)      (* sys.stdin.buffer.readline() returned raw *)
| Sleep                    (* asyncio.sleep(0.1) *)
| Write (frame : json)     (* json.dumps(frame).encode() + b"\n", flushed *)
| Generate (messages : list lc_message).   (* chat_model.agenerate *)

Record world : Type := {
  self : McpServer;
  trace : list event
}.

Definition emit (e : event) (w : world) : world :=
  {| self := self w; trace := trace w ++ [e] |}.

Definition written (t : list event) : list json :=
  flat_map (fun e => match e with Write f => [f] | _ => [] end) t.

Definition generate_calls (t : list event) : nat :=
  List.length (filter (fun e => match e with Generate _ => true | _ => false end) t).

Definition reads (t : list event) : list string :=
  flat_map (fun e => match e with Read r => [r] | _ => [] end) t.

(** Handlers run in the world and may raise: the world comes back either
    way. *)
Definition action (A : Type) : Type := world -> result A * world.

Definition ret {A : Type} (a : A) : action A := fun w => (Return a, w).
Definition raise {A : Type} (e : exn) : action A := fun w => (Raise e, w).
Definition lift {A : Type} (r : result A) : action A := fun w => (r, w).

Definition abind {A B : Type} (m : action A) (k : A -> action B) : action B :=
  fun w =>
    match m w with
    | (Return a, w') => k a w'
    | (Raise e, w') => (Raise e, w')
    end.

Notation "x <<- m ;; k" := (abind m (fun x => k))
  (at level 61, m at next level, right associativity) : py_scope.

(** ** The server *)

(** The names under which the registry holds the bound methods. *)
Inductive handler : Type :=
| h_list_tools
| h_invoke_tool
| h_ping
| h_shutdown.

(** [self._methods], as [__init__] fills it. *)
Definition _methods : list (string * handler) :=
  [ ("list_tools", h_list_tools);
    ("invoke_tool", h_invoke_tool);
    ("ping", h_ping);
    ("shutdown", h_shutdown) ].

Fixpoint registry_get (k : string) (r : list (string * handler)) : option handler :=
  match r with
  | [] => None
  | (k', h) :: r' => if String.eqb k k' then Some h else registry_get k r'
  end.

(** [self._methods.get(method)]: a list or a dictionary is not hashable; any
    other value that is not one of the four keys gives [None]. *)
Definition methods_get (method : json) : result (option handler) :=
  match method with
  | JStr s => Return (registry_get s _methods)
  | JArr _ | JObj _ => Raise TypeError
  | _ => Return None
  end.

(** [handler( **params )] on a bound method: [params] must be a mapping, and
    since [self] is already bound a key "self" gives it a second value. *)
Definition kwargs (params : json) : result dict :=
  match params with
  | JObj d => if has_key "self" d then Raise TypeError else Return d
  | _ => Raise TypeError
  end.

(** Binding the keywords to [(self, name, arguments)]: no keyword may be
    unexpected, none of the two may be missing. *)
Definition bind_name_arguments (d : dict) : result (json * json) :=
  if forallb (fun k => String.eqb k "name" || String.eqb k "arguments") (dict_keys d)
  then match dict_get "name" d, dict_get "arguments" d with
       | Some name, Some arguments => Return (name, arguments)
       | _, _ => Raise TypeError
       end
  else Raise TypeError.

Definition string_schema (description : string) : json :=
  JObj [("type", JStr "string"); ("description", JStr description)].

Definition number_schema (description : string) : json :=
  JObj [("type", JStr "number"); ("description", JStr description)].

Definition tool (name description : string) (properties : dict) (required : list string) : json :=
  JObj [ ("name", JStr name);
         ("description", JStr description);
         ("parameters",
          JObj [ ("type", JStr "object");
                 ("properties", JObj properties);
                 ("required", JArr (map JStr required)) ]) ].

Definition tools_catalog : json :=
  JObj [ ("tools", JArr [
    tool "echo" "Echo back the input message"
      [("message", string_schema "Message to echo back")] ["message"];
    tool "add" "Add two numbers"
      [("a", number_schema "First number"); ("b", number_schema "Second number")]
      ["a"; "b"];
    tool "chat" "Chat with LangChain model"
      [("messages",
        JObj [ ("type", JStr "array");
               ("items",
                JObj [ ("type", JStr "object");
                       ("properties",
                        JObj [ ("role", JObj [("type", JStr "string")]);
                               ("content", JObj [("type", JStr "string")]) ]) ]) ])]
      ["messages"] ]) ].

Definition handshake_capabilities : list string :=
  ["list_tools"; "invoke_tool"; "ping"; "shutdown"].

Definition handshake : json :=
  JObj [ ("jsonrpc", JStr "2.0");
         ("method", JStr "mcp/server_ready");
         ("id", JInt 0);
         ("params",
          JObj [ ("name", JStr "langchain-mcp");
                 ("version", JStr "0.1.0");
                 ("protocols", JArr [JStr "mcp/1.0"]);
                 ("capabilities", JArr (map JStr handshake_capabilities)) ]) ].

Definition error_response (code : Z) (message : string) (mid : json) : json :=
  JObj [ ("jsonrpc", JStr "2.0");
         ("error", JObj [("code", JInt code); ("message", JStr message)]);
         ("id", mid) ].

Definition result_response (res mid : json) : json :=
  JObj [ ("jsonrpc", JStr "2.0"); ("result", res); ("id", mid) ].

(** What leaves the loop body: [continue] with the next line, or [break]. *)
Inductive flow : Type := Continue | Break.

(** How [_read_loop] ends on a finite script of [readline] results: by
    [break], by an exception nobody catches, or, the script exhausted, still
    inside [while True], sleeping and reading again. *)
Inductive outcome : Type :=
| Terminated (w : world) (unread : list string)
| Crashed (e : exn) (w : world) (unread : list string)
| Polling (w : world).

Section Server.

Variable rt : Runtime.

Definition list_tools (_ : dict) : action json := ret tools_catalog.

Definition ping (_ : dict) : action json := ret (JStr "pong").

Definition shutdown (_ : dict) : action json :=
  fun w => (Return (JStr "shutting down"),
            {| self := {| _shutdown_requested := true |}; trace := trace w |}).

(** [str(v)], which is how an f-string formats [v]. *)
Definition py_str (v : json) : string :=
  match v with
  | JStr s => s
  | JNull => "None"
  | JBool true => "True"
  | JBool false => "False"
  | JInt n => NilZero.string_of_int (Z.to_int n)
  | JFloat _ | JArr _ | JObj _ => py_repr rt v
  end.

(** [float(x)] *)
Definition to_float (x : json) : result spec_float :=
  match x with
  | JFloat f => Return f
  | JInt n =>
      match float_of_int n with
      | S754_infinity _ => Raise OverflowError
      | f => Return f
      end
  | JBool b => Return (float_of_int (if b then 1 else 0))
  | JStr s =>
      match float_of_str rt s with
      | Some f => Return f
      | None => Raise ValueError
      end
  | JNull | JArr _ | JObj _ => Raise TypeError
  end.

Definition append_message (lc_messages : list lc_message) (m : lc_message)
  : result (list lc_message) :=
  match message_fault rt m with
  | Some e => Raise e
  | None => Return (lc_messages ++ [m])
  end.

(** The body of [for msg in messages]. *)
Fixpoint convert_messages (messages : list json) (lc_messages : list lc_message)
  : result (list lc_message) :=
  match messages with
  | [] => Return lc_messages
  | msg :: rest =>
      match py_get msg "role" JNull with
      | Raise e => Raise e
      | Return role =>
          match py_get msg "content" JNull with
          | Raise e => Raise e
          | Return content =>
              let appended :=
                if eq_str role "system" then append_message lc_messages (SystemMessage content)
                else if eq_str role "assistant" then append_message lc_messages (AIMessage content)
                else if eq_str role "user" then append_message lc_messages (HumanMessage content)
                else Return lc_messages in
              match appended with
              | Raise e => Raise e
              | Return lc_messages' => convert_messages rest lc_messages'
              end
          end
      end
  end.

Definition call_agenerate (lc_messages : list lc_message) : action string :=
  fun w => (agenerate rt (generate_calls (trace w)) lc_messages,
            emit (Generate lc_messages) w).

Definition invoke_tool (name arguments : json) : action json :=
  if eq_str name "echo" then
    lift (message <- py_get arguments "message" (JStr "") ;;
          Return (JObj [("echo", message)]))
  else if eq_str name "add" then
    lift (x <- py_get arguments "a" (JInt 0) ;;
          a <- to_float x ;;
          y <- py_get arguments "b" (JInt 0) ;;
          b <- to_float y ;;
          Return (JObj [("sum", JFloat (float_add a b))]))
  else if eq_str name "chat" then
    lc_messages <<- lift (messages <- py_get arguments "messages" (JArr []) ;;
                          items <- py_iter messages ;;
                          convert_messages items []) ;;
    text <<- call_agenerate lc_messages ;;
    ret (JObj [("response", JStr text)])
  else
    raise (JsonRpcError (-32001) ("Unknown tool: " ++ py_str name) JNull).

(** [await handler( **params )] *)
Definition call (h : handler) (params : json) : action json :=
  kw <<- lift (kwargs params) ;;
  match h with
  | h_list_tools => list_tools kw
  | h_ping => ping kw
  | h_shutdown => shutdown kw
  | h_invoke_tool =>
      na <<- lift (bind_name_arguments kw) ;;
      invoke_tool (fst na) (snd na)
  end.

Definition write (frame : json) : action unit :=
  fun w => (Return tt, emit (Write frame) w).

Definition send_handshake : action unit := write handshake.

(** One pass through the body of [while True], after a non-empty line was
    read. *)
Definition loop_body (raw : string) : action flow :=
  req <<- lift (json_loads rt raw) ;;
  mid <<- lift (py_get req "id" JNull) ;;
  method <<- lift (py_get req "method" JNull) ;;
  params <<- lift (py_get req "params" (JObj [])) ;;
  found <<- lift (methods_get method) ;;
  resp <<- match found with
           | None =>
               ret (error_response (-32601) ("Unknown method " ++ py_str method) mid)
           | Some h =>
               res <<- call h params ;;
               ret (result_response res mid)
           end ;;
  _ <<- write resp ;;
  ret (if eq_str method "shutdown" then Break else Continue).

Fixpoint _read_loop (stdin : list string) (w : world) : outcome :=
  match stdin with
  | [] => Polling w
  | raw :: rest =>
      let w1 := emit (Read raw) w in
      if String.eqb raw "" then _read_loop rest (emit Sleep w1)
      else match loop_body raw w1 with
           | (Raise e, w2) => Crashed e w2 rest
           | (Return Break, w2) => Terminated w2 rest
           | (Return Continue, w2) => _read_loop rest w2
           end
  end.

Definition run (stdin : list string) (w : world) : outcome :=
  match send_handshake w with
  | (Raise e, w1) => Crashed e w1 stdin
  | (Return _, w1) => _read_loop stdin w1
  end.

(** [McpServer()]: the connectivity check, then the initial state. *)
Definition __init__ : result McpServer :=
  match ollama_fault rt with
  | Some e => Raise e
  | None => Return {| _shutdown_requested := false |}
  end.

(** [asyncio.run(McpServer().run())] *)
Definition main (stdin : list string) : result outcome :=
  server <- __init__ ;;
  Return (run stdin {| self := server; trace := [] |}).

End Server.

(** ** A runtime to run the server on concrete lines

    [JsonText.loads] decodes JSON text the way [json.loads] does on the
    grammar of Python's scanner: the literals [null], [true], [false],
    [NaN], [Infinity], [-Infinity], integers of any size, decimal numbers
    (correctly rounded to a double), strings with their escapes, arrays and
    objects; a repeated key keeps its first position and its last value.
    Strings are held as the bytes of their UTF-8 encoding. *)
Module JsonText.

Local Open Scope char_scope.
Local Open Scope Z_scope.

Definition is_ws (c : ascii) : bool :=
  match c with
  | " " | "009" | "010" | "013" => true
  | _ => false
  end.

Fixpoint skip_ws (s : list ascii) : list ascii :=
  match s with
  | c :: t => if is_ws c then skip_ws t else s
  | [] => []
  end.

Definition code (c : ascii) : Z := Z.of_nat (nat_of_ascii c).

Definition digit (c : ascii) : option Z :=
  let n := code c in
  if (48 <=? n) && (n <=? 57) then Some (n - 48) else None.

Definition hex_digit (c : ascii) : option Z :=
  let n := code c in
  if (48 <=? n) && (n <=? 57) then Some (n - 48)
  else if (65 <=? n) && (n <=? 70) then Some (n - 55)
  else if (97 <=? n) && (n <=? 102) then Some (n - 87)
  else None.

(** The longest run of digits: its value after [acc], how many there were,
    and what follows. *)
Fixpoint digits (s : list ascii) (acc : Z) (count : Z) : Z * Z * list ascii :=
  match s with
  | c :: t =>
      match digit c with
      | Some d => digits t (10 * acc + d) (count + 1)
      | None => (acc, count, s)
      end
  | [] => (acc, count, [])
  end.

(** The double nearest to [m * 10^e]. *)
Definition decimal_to_float (negative : bool) (m : Z) (e : Z) : spec_float :=
  match m with
  | Zpos p =>
      if 0 <=? e
      then binary_normalize prec emax ((if negative then -1 else 1) * m * 10 ^ e) 0 false
      else SFdiv prec emax (S754_finite negative p 0)
                           (S754_finite false (Z.to_pos (10 ^ (- e))) 0)
  | _ => S754_zero negative
  end.

(** A number: an optional minus sign, then a zero or a run of digits that
    does not start with zero, then optionally a point with at least one
    digit, then optionally an exponent with at least one digit.  Without
    fraction and exponent it is an [int], else a [float]. *)
Definition number (s : list ascii) : option (json * list ascii) :=
  let '(negative, s1) :=
    match s with
    | "-" :: t => (true, t)
    | _ => (false, s)
    end in
  let int_part :=
    match s1 with
    | "0" :: t => Some (0, t)
    | c :: _ => match digit c with
                | Some _ => let '(n, _, t) := digits s1 0 0 in Some (n, t)
                | None => None
                end
    | [] => None
    end in
  match int_part with
  | None => None
  | Some (n, s2) =>
      let '(frac, s3) :=
        match s2 with
        | "." :: t =>
            let '(m, k, t') := digits t n 0 in
            if 0 <? k then (Some (m, k), t') else (None, s2)
        | _ => (None, s2)
        end in
      let '(exp, s4) :=
        match s3 with
        | ("e" | "E") :: t =>
            let '(sign, t1) :=
              match t with
              | "-" :: u => (-1, u)
              | "+" :: u => (1, u)
              | _ => (1, t)
              end in
            let '(x, k, t2) := digits t1 0 0 in
            if 0 <? k then (Some (sign * x), t2) else (None, s3)
        | _ => (None, s3)
        end in
      match frac, exp with
      | None, None => Some (JInt (if negative then - n else n), s4)
      | _, _ =>
          let '(m, k) := match frac with Some mk => mk | None => (n, 0) end in
          let x := match exp with Some x => x | None => 0 end in
          Some (JFloat (decimal_to_float negative m (x - k)), s4)
      end
  end.

Definition byte (n : Z) : ascii := ascii_of_nat (Z.to_nat n).

(** The UTF-8 bytes of a code point. *)
Definition utf8 (cp : Z) : list ascii :=
  if cp <? 128 then [byte cp]
  else if cp <? 2048 then [byte (192 + cp / 64); byte (128 + cp mod 64)]
  else if cp <? 65536 then
    [byte (224 + cp / 4096); byte (128 + (cp / 64) mod 64); byte (128 + cp mod 64)]
  else
    [byte (240 + cp / 262144); byte (128 + (cp / 4096) mod 64);
     byte (128 + (cp / 64) mod 64); byte (128 + cp mod 64)].

Definition hex4 (s : list ascii) : option (Z * list ascii) :=
  match s with
  | a :: b :: c :: d :: t =>
      match hex_digit a, hex_digit b, hex_digit c, hex_digit d with
      | Some x, Some y, Some z, Some w => Some (4096 * x + 256 * y + 16 * z + w, t)
      | _, _, _, _ => None
      end
  | _ => None
  end.

(** A [\u] escape, its four digits still to read; a high surrogate joins the
    low surrogate escaped right after it. *)
Definition unicode_escape (s : list ascii) : option (list ascii * list ascii) :=
  match hex4 s with
  | None => None
  | Some (hi, t) =>
      let alone := Some (utf8 hi, t) in
      if (55296 <=? hi) && (hi <=? 56319) then
        match t with
        | "\" :: "u" :: t' =>
            match hex4 t' with
            | Some (lo, t'') =>
                if (56320 <=? lo) && (lo <=? 57343)
                then Some (utf8 (65536 + (hi - 55296) * 1024 + (lo - 56320)), t'')
                else alone
            | None => alone
            end
        | _ => alone
        end
      else alone
  end.

(** The characters of a string up to its closing quote, the opening one
    already read.  The recursion is on the text: an escape is consumed by
    the step that meets its backslash. *)
Fixpoint chars (fuel : nat) (s : list ascii) (acc : list ascii)
  : option (list ascii * list ascii) :=
  match fuel with
  | O => None
  | S fuel' =>
      match s with
      | [] => None
      | "034" :: t => Some (acc, t)
      | "\" :: e :: t =>
          let simple (c : ascii) := chars fuel' t (acc ++ [c])%list in
          match e with
          | "034" => simple "034"
          | "\" => simple "\"
          | "/" => simple "/"
          | "b" => simple "008"
          | "f" => simple "012"
          | "n" => simple "010"
          | "r" => simple "013"
          | "t" => simple "009"
          | "u" =>
              match unicode_escape t with
              | Some (bytes, t') => chars fuel' t' (acc ++ bytes)%list
              | None => None
              end
          | _ => None
          end
      | c :: t => if code c <? 32 then None else chars fuel' t (acc ++ [c])%list
      end
  end.

Definition text (s : list ascii) : option (string * list ascii) :=
  match chars (S (List.length s)) s [] with
  | Some (cs, t) => Some (string_of_list_ascii cs, t)
  | None => None
  end.

(** [dict(pairs)]: a key met again keeps its place and takes the new
    value. *)
Fixpoint dict_set (k : string) (v : json) (d : dict) : dict :=
  match d with
  | [] => [(k, v)]
  | (k', v') :: d' =>
      if String.eqb k k' then (k, v) :: d' else (k', v') :: dict_set k v d'
  end.

Fixpoint starts_with (p s : list ascii) : option (list ascii) :=
  match p, s with
  | [], _ => Some s
  | a :: p', b :: s' => if Ascii.eqb a b then starts_with p' s' else None
  | _ :: _, [] => None
  end.

Definition literal (s : list ascii) : option (json * list ascii) :=
  let try (word : string) (v : json) (otherwise : option (json * list ascii)) :=
    match starts_with (list_ascii_of_string word) s with
    | Some t => Some (v, t)
    | None => otherwise
    end in
  try "null"%string JNull
    (try "true"%string (JBool true)
       (try "false"%string (JBool false)
          (try "NaN"%string (JFloat S754_nan)
             (try "Infinity"%string (JFloat (S754_infinity false))
                (try "-Infinity"%string (JFloat (S754_infinity true)) None))))).

(** One value at the head of [s].  [elements] and [members] read what
    follows an opening bracket or brace up to the closing one. *)
Fixpoint value (fuel : nat) (s : list ascii) : option (json * list ascii) :=
  match fuel with
  | O => None
  | S fuel' =>
      match s with
      | "034" :: t =>
          match text t with
          | Some (str, t') => Some (JStr str, t')
          | None => None
          end
      | "[" :: t =>
          match skip_ws t with
          | "]" :: t' => Some (JArr [], t')
          | t' =>
              (fix elements (n : nat) (s : list ascii) (acc : list json) {struct n}
                 : option (json * list ascii) :=
                 match n with
                 | O => None
                 | S n' =>
                     match value fuel' s with
                     | None => None
                     | Some (v, r) =>
                         match skip_ws r with
                         | "]" :: r' => Some (JArr (acc ++ [v])%list, r')
                         | "," :: r' => elements n' (skip_ws r') (acc ++ [v])%list
                         | _ => None
                         end
                     end
                 end) fuel' t' []
          end
      | "{" :: t =>
          match skip_ws t with
          | "}" :: t' => Some (JObj [], t')
          | t' =>
              (fix members (n : nat) (s : list ascii) (acc : dict) {struct n}
                 : option (json * list ascii) :=
                 match n with
                 | O => None
                 | S n' =>
                     match s with
                     | "034" :: s1 =>
                         match text s1 with
                         | None => None
                         | Some (k, s2) =>
                             match skip_ws s2 with
                             | ":" :: s3 =>
                                 match value fuel' (skip_ws s3) with
                                 | None => None
                                 | Some (v, r) =>
                                     match skip_ws r with
                                     | "}" :: r' => Some (JObj (dict_set k v acc), r')
                                     | "," :: r' => members n' (skip_ws r') (dict_set k v acc)
                                     | _ => None
                                     end
                                 end
                             | _ => None
                             end
                         end
                     | _ => None
                     end
                 end) fuel' t' []
          end
      | _ =>
          match number s with
          | Some r => Some r
          | None => literal s
          end
      end
  end.

Definition loads (raw : string) : result json :=
  let s := list_ascii_of_string raw in
  match value (S (List.length s)) (skip_ws s) with
  | Some (v, rest) =>
      match skip_ws rest with
      | [] => Return v
      | _ => Raise JSONDecodeError
      end
  | None => Raise JSONDecodeError
  end.

End JsonText.

(** The runtime of the tests: Ollama is reachable, every message is
    accepted and the model answers with a fixed text.  [float()] of a string
    is taken on the number grammar of JSON; [py_repr] is a placeholder, no
    test formats a float or a container. *)
Definition test_float_of_str (s : string) : option spec_float :=
  match JsonText.number (JsonText.skip_ws (list_ascii_of_string s)) with
  | Some (v, rest) =>
      match JsonText.skip_ws rest, v with
      | [], JInt n => Some (float_of_int n)
      | [], JFloat f => Some f
      | _, _ => None
      end
  | None => None
  end.

Definition test_runtime : Runtime := {|
  json_loads := JsonText.loads;
  py_repr := fun _ => "...";
  float_of_str := test_float_of_str;
  message_fault := fun _ => None;
  agenerate := fun _ _ => Return "Hello from the model";
  ollama_fault := None
|}.

Definition new_line : string := String "010" "".

(** A line as the test script sends it: the text, then a newline. *)
Definition line (text : string) : string := text ++ new_line.

(** JSON text is written below with an apostrophe where the line has a
    double quote. *)
Fixpoint quoted (text : string) : string :=
  match text with
  | EmptyString => EmptyString
  | String c rest => String (if Ascii.eqb c "'" then "034" else c) (quoted rest)
  end.

Definition fresh : world := {| self := {| _shutdown_requested := false |}; trace := [] |}.

(** ** Reading a request and telling what was written *)

(** [req.get("id")], [req.get("method")], [req.get("params", {})] on a
    decoded object. *)
Definition request_id (req : dict) : json :=
  match dict_get "id" req with Some v => v | None => JNull end.

Definition request_method (req : dict) : json :=
  match dict_get "method" req with Some v => v | None => JNull end.

Definition request_params (req : dict) : json :=
  match dict_get "params" req with Some v => v | None => JObj [] end.

Definition is_object (v : json) : bool :=
  match v with
  | JObj _ => true
  | _ => false
  end.

(** A frame with a key "method" is a notification: the handshake is one, a
    response is not. *)
Definition is_notification (frame : json) : bool :=
  match frame with
  | JObj d => has_key "method" d
  | _ => false
  end.

(** An Error response with this code and this id. *)
Definition is_error_response (code : Z) (mid : json) (frame : json) : Prop :=
  exists err, frame = JObj [("jsonrpc", JStr "2.0"); ("error", JObj err); ("id", mid)]
              /\ dict_get "code" err = Some (JInt code).

Definition final_world (o : outcome) : world :=
  match o with
  | Terminated w _ => w
  | Crashed _ w _ => w
  | Polling w => w
  end.

(** What a handler or the loop body may add to the trace: model calls and
    responses, never a read, a sleep or a notification. *)
Definition dispatch_event (e : event) : Prop :=
  match e with
  | Generate _ => True
  | Write frame => is_notification frame = false
  | Read _ | Sleep => False
  end.

(** What the loop may add: anything but a notification. *)
Definition loop_event (e : event) : Prop :=
  match e with
  | Write frame => is_notification frame = false
  | _ => True
  end.

(** ** The claims of the specification, as it words them *)

(** "returns the result [{"sum": a + b}]", with [a + b] the sum of the two
    decoded numbers as Python computes it: exact on two integers, the double
    sum as soon as one of them is a float. *)
Definition spec_sum (a b : json) : option json :=
  match a, b with
  | JInt x, JInt y => Some (JInt (x + y))
  | JInt x, JFloat g => Some (JFloat (float_add (float_of_int x) g))
  | JFloat f, JInt y => Some (JFloat (float_add f (float_of_int y)))
  | JFloat f, JFloat g => Some (JFloat (float_add f g))
  | _, _ => None
  end.

(** The integer a double is equal to, if it is one. *)
Definition float_integer (f : spec_float) : option Z :=
  match f with
  | S754_zero _ => Some 0%Z
  | S754_finite s m e =>
      let n := if s then Z.neg m else Z.pos m in
      if (0 <=? e)%Z then Some (n * 2 ^ e)%Z
      else if (n mod 2 ^ (- e) =? 0)%Z then Some (n / 2 ^ (- e))%Z
      else None
  | _ => None
  end.

(** [x == y] on two numbers. *)
Definition num_eq (x y : json) : bool :=
  match x, y with
  | JInt m, JInt n => (m =? n)%Z
  | JFloat f, JFloat g => SFeqb f g
  | JInt m, JFloat f | JFloat f, JInt m =>
      match float_integer f with
      | Some n => (m =? n)%Z
      | None => false
      end
  | _, _ => false
  end.

Definition add_returns_spec_sum (rt : Runtime) (a b : json) : Prop :=
  exists s expected,
    invoke_tool rt (JStr "add") (JObj [("a", a); ("b", b)]) fresh
      = (Return (JObj [("sum", s)]), fresh)
    /\ spec_sum a b = Some expected
    /\ num_eq s expected = true.

(** "the dispatch produces an Error response with this code and the id of
    the request, and the loop continues to the next frame" *)
Definition answers_with_error (rt : Runtime) (code : Z) (mid : json)
  (raw : string) (w : world) : Prop :=
  exists frame,
    loop_body rt raw w = (Return Continue, emit (Write frame) w)
    /\ is_error_response code mid frame.

(** "the server writes a result response and then the session loop
    terminates" *)
Definition answers_and_terminates (rt : Runtime) (raw : string) (w : world) : Prop :=
  exists res mid w',
    loop_body rt raw w = (Return Break, w')
    /\ written (trace w') = written (trace w) ++ [result_response res mid].

(** A valid request: an object whose "id" is a number, a string or null,
    whose "method" is a string and whose "params", when it has them, are a
    mapping. *)
Definition valid_request (req : dict) : bool :=
  match dict_get "id" req with
  | Some (JInt _ | JFloat _ | JStr _ | JNull) => true
  | _ => false
  end
  && match dict_get "method" req with
     | Some (JStr _) => true
     | _ => false
     end
  && is_object (request_params req).

(** A response under this id, with a result or with an error. *)
Definition is_response_to (mid : json) (frame : json) : Prop :=
  exists body,
    frame = JObj [("jsonrpc", JStr "2.0"); body; ("id", mid)]
    /\ (fst body = "result" \/ fst body = "error").

(** "the single response produced for it, whether a Result response or an
    Error response, carries that exact id": processing the line adds one
    frame to the output, a response under the id of the request. *)
Definition answered_under_its_id (rt : Runtime) (raw : string) (req : dict)
  (w : world) : Prop :=
  exists frame,
    written (trace (snd (loop_body rt raw w))) = written (trace w) ++ [frame]
    /\ is_response_to (request_id req) frame.

(** ** The lines of the examples *)

(** The five requests of tests/test_rpc.py, as [json.dumps] writes them. *)
Definition test_requests : list string :=
  [ line (quoted "{'jsonrpc': '2.0', 'method': 'list_tools', 'id': 1, 'params': {}}");
    line (quoted "{'jsonrpc': '2.0', 'method': 'invoke_tool', 'id': 2, 'params': {'name': 'echo', 'arguments': {'message': 'Hello, MCP!'}}}");
    line (quoted "{'jsonrpc': '2.0', 'method': 'invoke_tool', 'id': 3, 'params': {'name': 'add', 'arguments': {'a': 40, 'b': 2}}}");
    line (quoted "{'jsonrpc': '2.0', 'method': 'ping', 'id': 4, 'params': {}}");
    line (quoted "{'jsonrpc': '2.0', 'method': 'shutdown', 'id': 5, 'params': {}}") ].

Definition ping_line : string :=
  line (quoted "{'jsonrpc': '2.0', 'method': 'ping', 'id': 'req-7'}").

Definition ping_request : dict :=
  [("jsonrpc", JStr "2.0"); ("method", JStr "ping"); ("id", JStr "req-7")].

(** A ping under the id null. *)
Definition ping_null_line : string :=
  line (quoted "{'jsonrpc': '2.0', 'method': 'ping', 'id': null}").

Definition ping_null_request : dict :=
  [("jsonrpc", JStr "2.0"); ("method", JStr "ping"); ("id", JNull)].

Definition shutdown_line : string :=
  line (quoted "{'jsonrpc': '2.0', 'method': 'shutdown', 'id': 5, 'params': {}}").

Definition shutdown_request : dict :=
  [("jsonrpc", JStr "2.0"); ("method", JStr "shutdown"); ("id", JInt 5); ("params", JObj [])].

(** A shutdown request whose params mapping has the key "self". *)
Definition shutdown_self_line : string :=
  line (quoted "{'jsonrpc': '2.0', 'method': 'shutdown', 'id': 6, 'params': {'self': 1}}").

Definition resize_line : string :=
  line (quoted "{'jsonrpc': '2.0', 'method': 'resize', 'id': 7, 'params': {}}").

Definition resize_request : dict :=
  [("jsonrpc", JStr "2.0"); ("method", JStr "resize"); ("id", JInt 7); ("params", JObj [])].

(** [invoke_tool] without "arguments". *)
Definition no_arguments_line : string :=
  line (quoted "{'jsonrpc': '2.0', 'method': 'invoke_tool', 'id': 8, 'params': {'name': 'echo'}}").

Definition no_arguments_request : dict :=
  [("jsonrpc", JStr "2.0"); ("method", JStr "invoke_tool"); ("id", JInt 8);
   ("params", JObj [("name", JStr "echo")])].

(** [invoke_tool] with a tool the server does not have. *)
Definition unknown_tool_line : string :=
  line (quoted "{'jsonrpc': '2.0', 'method': 'invoke_tool', 'id': 9, 'params': {'name': 'resize', 'arguments': {}}}").

Definition unknown_tool_request : dict :=
  [("jsonrpc", JStr "2.0"); ("method", JStr "invoke_tool"); ("id", JInt 9);
   ("params", JObj [("name", JStr "resize"); ("arguments", JObj [])])].

(** A shutdown request with its params given by position, as JSON-RPC 2.0
    allows. *)
Definition shutdown_positional_line : string :=
  line (quoted "{'jsonrpc': '2.0', 'method': 'shutdown', 'id': 6, 'params': []}").

(** An echo of a message with an escaped quote, an escaped backslash and an
    escaped non-ASCII character (U+00E9, two bytes in UTF-8); and the
    message once decoded. *)
Definition echo_escapes_line : string :=
  line (quoted "{'jsonrpc': '2.0', 'method': 'invoke_tool', 'id': 10, 'params': {'name': 'echo', 'arguments': {'message': 'say \'hi\' \\ \u00e9'}}}").

Definition escapes_message : string :=
  "say " ++ String "034" ("hi" ++ String "034" (" \ " ++ String "195" (String "169" ""))).

(** A line that is not JSON, and one that is JSON but not an object. *)
Definition garbage_line : string := line (quoted "not json").

Definition array_line : string := line (quoted "[1, 2]").

(** ** The rest of the module *)

(** [is_pip_install], on the file names of the frames of [inspect.stack()]:
    [frame.filename.endswith('pip') or 'pip' in frame.filename]. *)
Fixpoint endswith (s suffix : string) : bool :=
  String.eqb s suffix
  || match s with
     | EmptyString => false
     | String _ s' => endswith s' suffix
     end.

Fixpoint contains (s sub : string) : bool :=
  String.prefix sub s
  || match s with
     | EmptyString => false
     | String _ s' => contains s' sub
     end.

Fixpoint is_pip_install (stack : list string) : bool :=
  match stack with
  | [] => false
  | filename :: frames =>
      if endswith filename "pip" || contains filename "pip" then true
      else is_pip_install frames
  end.

(** ** Reading a run *)

(** The names a catalog advertises: the "name" of each entry of "tools". *)
Definition tool_names (catalog : json) : list string :=
  match catalog with
  | JObj d =>
      match dict_get "tools" d with
      | Some (JArr tools) =>
          flat_map (fun t => match t with
                             | JObj td => match dict_get "name" td with
                                          | Some (JStr n) => [n]
                                          | _ => []
                                          end
                             | _ => []
                             end) tools
      | _ => []
      end
  | _ => []
  end.

(** The lines among the results of [readline]: the non-empty ones. *)
Definition lines_of (stdin : list string) : list string :=
  filter (fun raw => negb (String.eqb raw "")) stdin.

Definition unread_of (o : outcome) : list string :=
  match o with
  | Terminated _ unread => unread
  | Crashed _ _ unread => unread
  | Polling _ => []
  end.

Definition is_terminated (o : outcome) : bool :=
  match o with
  | Terminated _ _ => true
  | _ => false
  end.

(** The frame is the response to the request on this line: the line decodes
    to an object and the frame is the result of its handler, or the error
    for its unknown method, under the id of the request. *)
Definition answers (rt : Runtime) (raw : string) (frame : json) : Prop :=
  exists req,
    json_loads rt raw = Return (JObj req)
    /\ ((exists res, frame = result_response res (request_id req))
        \/ frame = error_response (-32601)
                     ("Unknown method " ++ py_str rt (request_method req))
                     (request_id req)).

(** What one message of the chat tool contributes to the list handed to the
    model: one LangChain message for the roles "system", "assistant" and
    "user", nothing for any other role. *)
Definition lc_messages_of (msg : json) : list lc_message :=
  match msg with
  | JObj d =>
      let role := match dict_get "role" d with Some v => v | None => JNull end in
      let content := match dict_get "content" d with Some v => v | None => JNull end in
      if eq_str role "system" then [SystemMessage content]
      else if eq_str role "assistant" then [AIMessage content]
      else if eq_str role "user" then [HumanMessage content]
      else []
  | _ => []
  end.

(** The backend raises no [JsonRpcError] of its own. *)
Definition backend_undeclared (rt : Runtime) : Prop :=
  (forall m e, message_fault rt m = Some e -> is_declared e = false)
  /\ (forall n msgs e, agenerate rt n msgs = Raise e -> is_declared e = false).

Definition raised_declared {A : Type} (r : result A) : bool :=
  match r with
  | Raise e => is_declared e
  | Return _ => false
  end.

(** Two worlds the server cannot tell apart: the same server object, as
    many model calls so far, the same frames written. *)
Definition same_view (w1 w2 : world) : Prop :=
  self w1 = self w2
  /\ generate_calls (trace w1) = generate_calls (trace w2)
  /\ written (trace w1) = written (trace w2).

(** Two outcomes a peer cannot tell apart: the same way out, the same
    server object and the same frames written. *)
Definition same_outcome (o1 o2 : outcome) : Prop :=
  match o1, o2 with
  | Terminated w1 _, Terminated w2 _ => same_view w1 w2
  | Crashed e1 w1 _, Crashed e2 w2 _ => e1 = e2 /\ same_view w1 w2
  | Polling w1, Polling w2 => same_view w1 w2
  | _, _ => False
  end.

(** An integer given by its sign and its magnitude. *)
Definition signed (s : bool) (n : positive) : Z := if s then Zneg n else Zpos n.

(** The double of an integer of less than 54 bits: the magnitude, shifted
    left to fill the 53 bits of the mantissa, and the exponent that shifts
    it back. *)
Definition canon (s : bool) (n : positive) : spec_float :=
  S754_finite s (Pos.shiftl n (Z.to_N (53 - Zpos (digits2_pos n))))
              (Zpos (digits2_pos n) - 53)%Z.

(** More lines for the examples. *)
Definition list_tools_line : string :=
  line (quoted "{'jsonrpc': '2.0', 'method': 'list_tools', 'id': 1, 'params': {}}").

Definition list_tools_request : dict :=
  [("jsonrpc", JStr "2.0"); ("method", JStr "list_tools"); ("id", JInt 1); ("params", JObj [])].

Definition chat_line : string :=
  line (quoted "{'jsonrpc': '2.0', 'method': 'invoke_tool', 'id': 11, 'params': {'name': 'chat', 'arguments': {'messages': [{'role': 'system', 'content': 'Be brief.'}, {'role': 'tool', 'content': 'x'}, {'role': 'user', 'content': 'Hi'}]}}}").

Definition chat_messages : list json :=
  [ JObj [("role", JStr "system"); ("content", JStr "Be brief.")];
    JObj [("role", JStr "tool"); ("content", JStr "x")];
    JObj [("role", JStr "user"); ("content", JStr "Hi")] ].



Definition list_method_line : string :=
  line (quoted "{'jsonrpc': '2.0', 'id': 13, 'method': ['ping']}").

Definition list_method_request : dict :=
  [("jsonrpc", JStr "2.0"); ("id", JInt 13); ("method", JArr [JStr "ping"])].

(** * Properties *)

Section Properties.

Variable rt : Runtime.

(** ** The loop body, case by case *)

Lemma loop_body_decode_fault (raw : string) (e : exn) (w : world) :
  json_loads rt raw = Raise e ->
  loop_body rt raw w = (Raise e, w).
Proof.
  intros H. unfold loop_body, abind, lift. now rewrite H.
Qed.

Lemma loop_body_not_object (raw : string) (v : json) (w : world) :
  json_loads rt raw = Return v ->
  is_object v = false ->
  loop_body rt raw w = (Raise AttributeError, w).
Proof.
  intros H Hv. unfold loop_body, abind, lift. rewrite H.
  destruct v; simpl in *; try reflexivity. discriminate.
Qed.

Lemma loop_body_unhashable (raw : string) (req : dict) (w : world) :
  json_loads rt raw = Return (JObj req) ->
  methods_get (request_method req) = Raise TypeError ->
  loop_body rt raw w = (Raise TypeError, w).
Proof.
  intros H Hm. unfold loop_body, abind, lift. rewrite H. simpl.
  fold (request_method req). now rewrite Hm.
Qed.

Lemma loop_body_not_found (raw : string) (req : dict) (w : world) :
  json_loads rt raw = Return (JObj req) ->
  methods_get (request_method req) = Return None ->
  loop_body rt raw w =
    (Return (if eq_str (request_method req) "shutdown" then Break else Continue),
     emit (Write (error_response (-32601)
                    ("Unknown method " ++ py_str rt (request_method req))
                    (request_id req))) w).
Proof.
  intros H Hm. unfold loop_body, abind, lift. rewrite H. simpl.
  fold (request_method req) (request_id req). now rewrite Hm.
Qed.

Lemma loop_body_raise (raw : string) (req : dict) (h : handler) (e : exn) (w w' : world) :
  json_loads rt raw = Return (JObj req) ->
  methods_get (request_method req) = Return (Some h) ->
  call rt h (request_params req) w = (Raise e, w') ->
  loop_body rt raw w = (Raise e, w').
Proof.
  intros H Hm Hc. unfold loop_body, abind, lift. rewrite H. simpl.
  fold (request_method req) (request_params req). rewrite Hm. simpl.
  unfold abind. now rewrite Hc.
Qed.

Lemma loop_body_return (raw : string) (req : dict) (h : handler) (res : json) (w w' : world) :
  json_loads rt raw = Return (JObj req) ->
  methods_get (request_method req) = Return (Some h) ->
  call rt h (request_params req) w = (Return res, w') ->
  loop_body rt raw w =
    (Return (if eq_str (request_method req) "shutdown" then Break else Continue),
     emit (Write (result_response res (request_id req))) w').
Proof.
  intros H Hm Hc. unfold loop_body, abind, lift. rewrite H. simpl.
  fold (request_method req) (request_params req) (request_id req). rewrite Hm. simpl.
  unfold abind. now rewrite Hc.
Qed.

(** The registry answers [None] or one of its four entries; only a list or a
    dictionary makes the lookup raise. *)
Lemma methods_get_cases (method : json) :
  methods_get method = Raise TypeError
  \/ methods_get method = Return None
  \/ exists h, methods_get method = Return (Some h).
Proof.
  destruct method; try (now right; left); try (now left).
  unfold methods_get. destruct (registry_get s _methods) as [h|].
  - right; right. now exists h.
  - right; now left.
Qed.


Lemma registry_get_some (m : string) (h : handler) :
  registry_get m _methods = Some h -> In m (map fst _methods).
Proof.
  simpl.
  repeat match goal with
  | |- context [String.eqb m ?k] =>
      destruct (String.eqb_spec m k) as [->|_]; [intros _; tauto|]
  end.
  discriminate.
Qed.

(** A registered method other than [shutdown] does not compare equal to
    "shutdown", and an unregistered one neither. *)
Lemma not_found_is_not_shutdown (method : json) :
  methods_get method = Return None -> eq_str method "shutdown" = false.
Proof.
  destruct method; simpl; try reflexivity.
  destruct (String.eqb_spec s "shutdown") as [->|_]; [discriminate | reflexivity].
Qed.

Lemma written_emit (e : event) (w : world) :
  written (trace (emit e w)) =
    written (trace w) ++ match e with Write f => [f] | _ => [] end.
Proof.
  unfold written, emit. simpl. rewrite flat_map_app. simpl.
  now rewrite app_nil_r.
Qed.

Lemma reads_emit (e : event) (w : world) :
  reads (trace (emit e w)) =
    reads (trace w) ++ match e with Read r => [r] | _ => [] end.
Proof.
  unfold reads, emit. simpl. rewrite flat_map_app. simpl.
  now rewrite app_nil_r.
Qed.

(** ** What a handler does to the world *)

(** A handler adds at most one event, a call of the model; it reads and
    writes nothing. *)
Lemma call_trace (h : handler) (params : json) (w w' : world) (r : result json) :
  call rt h params w = (r, w') ->
  trace w' = trace w \/ exists msgs, trace w' = trace w ++ [Generate msgs].
Proof.
  unfold call, abind, lift. destruct (kwargs params) as [kw|e].
  2:{ intros [= <- <-]. now left. }
  destruct h.
  - unfold list_tools, ret. intros [= <- <-]. now left.
  - destruct (bind_name_arguments kw) as [[name arguments]|e].
    2:{ intros [= <- <-]. now left. }
    simpl. unfold invoke_tool.
    destruct (eq_str name "echo").
    { unfold lift. intros [= <- <-]. now left. }
    destruct (eq_str name "add").
    { unfold lift. intros [= <- <-]. now left. }
    destruct (eq_str name "chat").
    2:{ unfold raise. intros [= <- <-]. now left. }
    unfold abind, lift.
    match goal with |- context [match ?x with Return _ => _ | Raise _ => _ end] =>
      destruct x as [msgs|e] end.
    2:{ intros [= <- <-]. now left. }
    unfold call_agenerate.
    destruct (agenerate rt (generate_calls (trace w)) msgs); unfold ret;
      intros [= <- <-]; right; exists msgs; reflexivity.
  - unfold ping, ret. intros [= <- <-]. now left.
  - unfold shutdown. intros [= <- <-]. now left.
Qed.

Lemma call_written (h : handler) (params : json) (w w' : world) (r : result json) :
  call rt h params w = (r, w') ->
  written (trace w') = written (trace w).
Proof.
  intros H. destruct (call_trace _ _ _ _ _ H) as [->|[msgs ->]]; [reflexivity|].
  unfold written. rewrite flat_map_app. simpl. now rewrite app_nil_r.
Qed.

(** ** One turn of the loop *)

Lemma read_loop_line (raw : string) (rest : list string) (w : world) :
  raw <> "" ->
  _read_loop rt (raw :: rest) w =
    match loop_body rt raw (emit (Read raw) w) with
    | (Raise e, w2) => Crashed e w2 rest
    | (Return Break, w2) => Terminated w2 rest
    | (Return Continue, w2) => _read_loop rt rest w2
    end.
Proof.
  intros H. simpl. destruct (String.eqb_spec raw ""); [contradiction | reflexivity].
Qed.

Lemma handler_fault_leaves_loop
  (raw : string) (rest : list string) (w w' : world) (req : dict) (h : handler) (e : exn) :
  raw <> "" ->
  json_loads rt raw = Return (JObj req) ->
  methods_get (request_method req) = Return (Some h) ->
  call rt h (request_params req) (emit (Read raw) w) = (Raise e, w') ->
  _read_loop rt (raw :: rest) w = Crashed e w' rest
  /\ written (trace w') = written (trace w).
Proof.
  intros Hraw Hreq Hm Hc. split.
  - rewrite read_loop_line by assumption.
    now rewrite (loop_body_raise _ _ _ _ _ _ Hreq Hm Hc).
  - rewrite (call_written _ _ _ _ _ Hc), written_emit. apply app_nil_r.
Qed.

(** C1, as the code has it: when the handler a request resolves to raises an
    undeclared fault (anything but a [JsonRpcError]), nothing catches it.  No
    response is written for the request, the fault leaves [_read_loop], which
    ends with it, and the lines that follow are never read. *)
Theorem undeclared_fault_leaves_loop
  (raw : string) (rest : list string) (w w' : world) (req : dict) (h : handler) (e : exn) :
  raw <> "" ->
  json_loads rt raw = Return (JObj req) ->
  methods_get (request_method req) = Return (Some h) ->
  call rt h (request_params req) (emit (Read raw) w) = (Raise e, w') ->
  is_declared e = false ->
  _read_loop rt (raw :: rest) w = Crashed e w' rest
  /\ written (trace w') = written (trace w).
Proof.
  intros Hraw Hreq Hm Hc _. eapply handler_fault_leaves_loop; eassumption.
Qed.

(** C2, as the code has it: a line that [json.loads] rejects, or that
    decodes to something other than an object, ends the loop.  The decoder's
    fault (or the [AttributeError] of [req.get]) leaves [_read_loop]; no
    response is written and no further line is read. *)
Theorem malformed_line_leaves_loop (raw : string) (rest : list string) (w : world) :
  raw <> "" ->
  match json_loads rt raw with
  | Raise _ => True
  | Return v => is_object v = false
  end ->
  _read_loop rt (raw :: rest) w =
    Crashed (match json_loads rt raw with Raise e => e | Return _ => AttributeError end)
            (emit (Read raw) w) rest
  /\ written (trace (emit (Read raw) w)) = written (trace w).
Proof.
  intros Hraw H. split.
  - rewrite read_loop_line by assumption.
    destruct (json_loads rt raw) as [v|e] eqn:Hl.
    + now rewrite (loop_body_not_object _ _ _ Hl H).
    + now rewrite (loop_body_decode_fault _ _ _ Hl).
  - rewrite written_emit. apply app_nil_r.
Qed.

(** C4, as the code has it: a decoded request is answered exactly when its
    method is not registered or its handler returns.  In the first case the
    loop body returns having added one frame to the output, the Error
    response of code -32601; in the second it returns having added one frame,
    the Result response with what the handler returned.  Either response
    carries under "id" the value the request carried there ([None] for a
    request without one), whatever its type.  When the handler raises an
    undeclared fault the body raises it too and no frame is added: that
    request has no response. *)
Theorem response_carries_request_id (raw : string) (req : dict) (w : world) :
  json_loads rt raw = Return (JObj req) ->
  match methods_get (request_method req) with
  | Return None =>
      exists w',
        loop_body rt raw w = (Return Continue, w')
        /\ written (trace w') =
             written (trace w)
             ++ [error_response (-32601)
                   ("Unknown method " ++ py_str rt (request_method req))
                   (request_id req)]
  | Return (Some h) =>
      match fst (call rt h (request_params req) w) with
      | Return res =>
          exists fl w',
            loop_body rt raw w = (Return fl, w')
            /\ written (trace w') =
                 written (trace w) ++ [result_response res (request_id req)]
      | Raise e =>
          is_declared e = false ->
          exists w',
            loop_body rt raw w = (Raise e, w')
            /\ written (trace w') = written (trace w)
      end
  | Raise e =>
      exists w',
        loop_body rt raw w = (Raise e, w')
        /\ written (trace w') = written (trace w)
  end.
Proof.
  intros Hreq.
  destruct (methods_get (request_method req)) as [[h|]|e] eqn:Hm.
  - destruct (call rt h (request_params req) w) as [[res|e] w1] eqn:Hc; simpl.
    + eexists; eexists. split.
      * apply (loop_body_return _ _ _ _ _ _ Hreq Hm Hc).
      * rewrite written_emit. now rewrite (call_written _ _ _ _ _ Hc).
    + intros _. exists w1. split.
      * apply (loop_body_raise _ _ _ _ _ _ Hreq Hm Hc).
      * apply (call_written _ _ _ _ _ Hc).
  - eexists. split.
    + rewrite (loop_body_not_found _ _ _ Hreq Hm).
      now rewrite (not_found_is_not_shutdown _ Hm).
    + now rewrite written_emit.
  - exists w. split; [|reflexivity].
    destruct (methods_get_cases (request_method req)) as [H|[H|[h H]]];
      rewrite Hm in H; try discriminate.
    injection H as ->. apply (loop_body_unhashable _ _ _ Hreq Hm).
Qed.


(** C10: an [invoke_tool] request whose params mapping lacks "name" or
    "arguments", or holds any other key, makes the call of the handler raise
    [TypeError], an undeclared fault; no response is written for it. *)
Theorem invoke_tool_bad_keywords
  (raw : string) (rest : list string) (w : world) (req ps : dict) :
  raw <> "" ->
  json_loads rt raw = Return (JObj req) ->
  dict_get "method" req = Some (JStr "invoke_tool") ->
  request_params req = JObj ps ->
  (dict_get "name" ps = None
   \/ dict_get "arguments" ps = None
   \/ exists k, In k (dict_keys ps) /\ k <> "name" /\ k <> "arguments") ->
  call rt h_invoke_tool (JObj ps) (emit (Read raw) w) = (Raise TypeError, emit (Read raw) w)
  /\ is_declared TypeError = false
  /\ _read_loop rt (raw :: rest) w = Crashed TypeError (emit (Read raw) w) rest
  /\ written (trace (emit (Read raw) w)) = written (trace w).
Proof.
  intros Hraw Hreq Hmeth Hps Hbad.
  assert (Hc : call rt h_invoke_tool (JObj ps) (emit (Read raw) w)
               = (Raise TypeError, emit (Read raw) w)).
  { unfold call, abind, lift, kwargs.
    destruct (has_key "self" ps); [reflexivity|].
    unfold bind_name_arguments.
    destruct (forallb _ (dict_keys ps)) eqn:Hall; [|reflexivity].
    destruct Hbad as [Hn|[Ha|[k [Hin [Hk1 Hk2]]]]].
    - now rewrite Hn.
    - rewrite Ha. now destruct (dict_get "name" ps).
    - rewrite forallb_forall in Hall. specialize (Hall k Hin).
      apply orb_true_iff in Hall.
      destruct Hall as [H|H]; apply String.eqb_eq in H; contradiction. }
  assert (Hm : methods_get (request_method req) = Return (Some h_invoke_tool)).
  { unfold request_method. now rewrite Hmeth. }
  rewrite <- Hps in Hc at 1.
  destruct (handler_fault_leaves_loop raw rest w _ req _ _ Hraw Hreq Hm Hc) as [Hl Hw].
  rewrite Hps in Hc. repeat split; assumption.
Qed.

(** ** Shutdown *)

Lemma call_shutdown (params : json) (kw : dict) (w : world) :
  kwargs params = Return kw ->
  call rt h_shutdown params w =
    (Return (JStr "shutting down"),
     {| self := {| _shutdown_requested := true |}; trace := trace w |}).
Proof.
  intros H. unfold call, abind, lift. now rewrite H.
Qed.

Lemma eq_str_true (v : json) (s : string) : eq_str v s = true -> v = JStr s.
Proof.
  destruct v; simpl; try discriminate.
  intros H. apply String.eqb_eq in H. now subst.
Qed.

(** The body leaves by [break] only when it has answered a request whose
    method is "shutdown" with the result of the shutdown handler. *)
Lemma loop_body_break (raw : string) (w w' : world) :
  loop_body rt raw w = (Return Break, w') ->
  exists req,
    json_loads rt raw = Return (JObj req)
    /\ request_method req = JStr "shutdown"
    /\ w' = emit (Write (result_response (JStr "shutting down") (request_id req)))
              {| self := {| _shutdown_requested := true |}; trace := trace w |}.
Proof.
  intros Hb.
  destruct (json_loads rt raw) as [v|e] eqn:Hl.
  2:{ rewrite (loop_body_decode_fault _ _ _ Hl) in Hb. discriminate. }
  destruct (is_object v) eqn:Hv.
  2:{ rewrite (loop_body_not_object _ _ _ Hl Hv) in Hb. discriminate. }
  destruct v as [| | | | | |req]; try discriminate.
  exists req. split; [reflexivity|].
  destruct (methods_get_cases (request_method req)) as [Hm|[Hm|[h Hm]]].
  - rewrite (loop_body_unhashable _ _ _ Hl Hm) in Hb. discriminate.
  - rewrite (loop_body_not_found _ _ _ Hl Hm) in Hb.
    rewrite (not_found_is_not_shutdown _ Hm) in Hb. discriminate.
  - destruct (call rt h (request_params req) w) as [[res|e] w1] eqn:Hc.
    2:{ rewrite (loop_body_raise _ _ _ _ _ _ Hl Hm Hc) in Hb. discriminate. }
    rewrite (loop_body_return _ _ _ _ _ _ Hl Hm Hc) in Hb.
    destruct (eq_str (request_method req) "shutdown") eqn:Hs; [|discriminate].
    apply eq_str_true in Hs. split; [assumption|].
    rewrite Hs in Hm. injection Hm as <-.
    unfold call, abind, lift in Hc.
    destruct (kwargs (request_params req)); [|discriminate].
    unfold shutdown in Hc. injection Hc as <- <-.
    now injection Hb as <-.
Qed.

Lemma break_only_after_shutdown (stdin : list string) :
  forall (w w' : world) (unread : list string),
    _read_loop rt stdin w = Terminated w' unread ->
    exists before raw req t,
      stdin = before ++ raw :: unread
      /\ json_loads rt raw = Return (JObj req)
      /\ request_method req = JStr "shutdown"
      /\ trace w' = t ++ [Write (result_response (JStr "shutting down") (request_id req))]
      /\ _shutdown_requested (self w') = true.
Proof.
  induction stdin as [|raw rest IH]; intros w w' unread H; [discriminate|].
  simpl in H. destruct (String.eqb raw "").
  - destruct (IH _ _ _ H) as (before & l & req & t & -> & Hrest).
    exists (raw :: before), l, req, t. split; [reflexivity | exact Hrest].
  - destruct (loop_body rt raw (emit (Read raw) w)) as [[[|]|e] w2] eqn:Hb.
    + destruct (IH _ _ _ H) as (before & l & req & t & -> & Hrest).
      exists (raw :: before), l, req, t. split; [reflexivity | exact Hrest].
    + injection H as <- <-.
      destruct (loop_body_break _ _ _ Hb) as (req & Hl & Hm & ->).
      exists [], raw, req, (trace (emit (Read raw) w)).
      repeat split; assumption || reflexivity.
    + discriminate.
Qed.

(** C6, as the code has it: a shutdown request whose params bind to the
    handler (a mapping without the key "self"; a request without params
    counts as the empty mapping) is answered with the result "shutting
    down", and right after that write the loop terminates, the following
    lines unread.  Conversely, whenever the loop ends by [break], the last
    line it read was a shutdown request and the last thing it did was to
    write that result; every other way out is a fault nobody caught. *)
Theorem shutdown_ends_loop
  (raw : string) (rest : list string) (w : world) (req kw : dict) :
  raw <> "" ->
  json_loads rt raw = Return (JObj req) ->
  dict_get "method" req = Some (JStr "shutdown") ->
  kwargs (request_params req) = Return kw ->
  _read_loop rt (raw :: rest) w =
    Terminated
      {| self := {| _shutdown_requested := true |};
         trace := trace w ++ [Read raw;
                              Write (result_response (JStr "shutting down") (request_id req))] |}
      rest
  /\ forall (stdin : list string) (w0 w1 : world) (unread : list string),
       _read_loop rt stdin w0 = Terminated w1 unread ->
       exists before last req' t,
         stdin = before ++ last :: unread
         /\ json_loads rt last = Return (JObj req')
         /\ request_method req' = JStr "shutdown"
         /\ trace w1 = t ++ [Write (result_response (JStr "shutting down") (request_id req'))]
         /\ _shutdown_requested (self w1) = true.
Proof.
  intros Hraw Hreq Hmeth Hkw. split.
  - assert (Hm : methods_get (request_method req) = Return (Some h_shutdown)).
    { unfold request_method. now rewrite Hmeth. }
    rewrite read_loop_line by assumption.
    rewrite (loop_body_return _ _ _ _ _ _ Hreq Hm (call_shutdown _ _ _ Hkw)).
    unfold request_method. rewrite Hmeth. simpl.
    unfold emit. simpl. now rewrite <- app_assoc.
  - intros stdin. apply break_only_after_shutdown.
Qed.

(** ** The tools *)

Lemma bind_name_arguments_no_self (ps : dict) (na : json * json) :
  bind_name_arguments ps = Return na -> has_key "self" ps = false.
Proof.
  unfold bind_name_arguments.
  destruct (forallb _ (dict_keys ps)) eqn:Hall; [intros _|discriminate].
  destruct (has_key "self" ps) eqn:Hs; [|reflexivity].
  unfold has_key in Hs. apply existsb_exists in Hs as [k [Hin Hk]].
  apply String.eqb_eq in Hk. subst k.
  rewrite forallb_forall in Hall. now specialize (Hall _ Hin).
Qed.

Lemma unknown_tool_raises (name : string) (arguments : json) (w : world) :
  name <> "echo" -> name <> "add" -> name <> "chat" ->
  invoke_tool rt (JStr name) arguments w =
    (Raise (JsonRpcError (-32001) ("Unknown tool: " ++ name) JNull), w).
Proof.
  intros He Ha Hc. unfold invoke_tool, eq_str.
  apply String.eqb_neq in He, Ha, Hc. now rewrite He, Ha, Hc.
Qed.

(** C3, what the code does: with a tool name other than "echo", "add" and
    "chat", [invoke_tool] raises the declared error [JsonRpcError] with code
    -32001 and runs no tool (the world is as before); but [_read_loop] has
    no handler for it: the error leaves the loop, which ends with it, and
    no Error response is written. *)
Theorem unknown_tool_error_leaves_loop
  (raw : string) (rest : list string) (w : world) (req ps : dict)
  (name : string) (arguments : json) :
  raw <> "" ->
  json_loads rt raw = Return (JObj req) ->
  dict_get "method" req = Some (JStr "invoke_tool") ->
  request_params req = JObj ps ->
  bind_name_arguments ps = Return (JStr name, arguments) ->
  name <> "echo" -> name <> "add" -> name <> "chat" ->
  let error := JsonRpcError (-32001) ("Unknown tool: " ++ name) JNull in
  invoke_tool rt (JStr name) arguments (emit (Read raw) w) = (Raise error, emit (Read raw) w)
  /\ is_declared error = true
  /\ _read_loop rt (raw :: rest) w = Crashed error (emit (Read raw) w) rest
  /\ written (trace (emit (Read raw) w)) = written (trace w).
Proof.
  intros Hraw Hreq Hmeth Hps Hbind He Ha Hc error.
  pose proof (unknown_tool_raises name arguments (emit (Read raw) w) He Ha Hc) as Hi.
  assert (Hm : methods_get (request_method req) = Return (Some h_invoke_tool)).
  { unfold request_method. now rewrite Hmeth. }
  assert (Hcall : call rt h_invoke_tool (request_params req) (emit (Read raw) w)
                  = (Raise error, emit (Read raw) w)).
  { rewrite Hps. unfold call, abind, lift, kwargs.
    rewrite (bind_name_arguments_no_self _ _ Hbind), Hbind. exact Hi. }
  destruct (handler_fault_leaves_loop raw rest w _ req _ _ Hraw Hreq Hm Hcall) as [Hl Hw].
  repeat split; assumption.
Qed.

(** C7: for every string [X], [invoke_tool] with the name "echo" and the
    arguments [{"message": X}] returns [{"echo": X}], called directly or
    through the registry with the params [{"name": "echo", "arguments":
    {"message": X}}]; the world is left as it was. *)
Theorem echo_round_trip (X : string) (w : world) :
  invoke_tool rt (JStr "echo") (JObj [("message", JStr X)]) w
    = (Return (JObj [("echo", JStr X)]), w)
  /\ call rt h_invoke_tool
       (JObj [("name", JStr "echo"); ("arguments", JObj [("message", JStr X)])]) w
    = (Return (JObj [("echo", JStr X)]), w).
Proof.
  split; reflexivity.
Qed.

(** Through the loop: an echo request is answered with the result
    [{"echo": X}] under the id of the request, and the loop goes on. *)
Lemma echo_request_is_answered
  (raw : string) (rest : list string) (w : world) (req : dict) (X : string) :
  raw <> "" ->
  json_loads rt raw = Return (JObj req) ->
  dict_get "method" req = Some (JStr "invoke_tool") ->
  request_params req =
    JObj [("name", JStr "echo"); ("arguments", JObj [("message", JStr X)])] ->
  _read_loop rt (raw :: rest) w =
    _read_loop rt rest
      (emit (Write (result_response (JObj [("echo", JStr X)]) (request_id req)))
         (emit (Read raw) w)).
Proof.
  intros Hraw Hreq Hmeth Hps.
  assert (Hm : methods_get (request_method req) = Return (Some h_invoke_tool)).
  { unfold request_method. now rewrite Hmeth. }
  assert (Hc : call rt h_invoke_tool (request_params req) (emit (Read raw) w)
               = (Return (JObj [("echo", JStr X)]), emit (Read raw) w)).
  { rewrite Hps. reflexivity. }
  rewrite read_loop_line by assumption.
  rewrite (loop_body_return _ _ _ _ _ _ Hreq Hm Hc).
  unfold request_method. now rewrite Hmeth.
Qed.

Lemma float_add_comm (x y : spec_float) : float_add x y = float_add y x.
Proof.
  unfold float_add.
  destruct x as [[|]|[|]| |sx mx ex], y as [[|]|[|]| |sy my ey]; try reflexivity.
  unfold SFadd. rewrite (Z.min_comm ey ex). f_equal. apply Z.add_comm.
Qed.

Lemma add_returns (a b : json) (fa fb : spec_float) (w : world) :
  to_float rt a = Return fa ->
  to_float rt b = Return fb ->
  invoke_tool rt (JStr "add") (JObj [("a", a); ("b", b)]) w
    = (Return (JObj [("sum", JFloat (float_add fa fb))]), w).
Proof.
  intros Ha Hb. unfold invoke_tool, lift. simpl. now rewrite Ha, Hb.
Qed.

(** C8, as the code has it: the tool adds doubles.  For every [a] and [b]
    that [float()] converts (every float, every integer whose nearest double
    is finite), "add" returns [{"sum": float(a) + float(b)}], the IEEE 754
    sum of the two doubles, and returns the same with [a] and [b] exchanged;
    40 and 2 give 42.0, 1.5 and 2.5 give 4.0. *)
Theorem add_returns_double_sum (a b : json) (fa fb : spec_float) (w : world) :
  to_float rt a = Return fa ->
  to_float rt b = Return fb ->
  invoke_tool rt (JStr "add") (JObj [("a", a); ("b", b)]) w
    = (Return (JObj [("sum", JFloat (float_add fa fb))]), w)
  /\ invoke_tool rt (JStr "add") (JObj [("a", b); ("b", a)]) w
    = invoke_tool rt (JStr "add") (JObj [("a", a); ("b", b)]) w
  /\ float_add (float_of_int 40) (float_of_int 2) = float_of_int 42
  /\ float_add (JsonText.decimal_to_float false 15 (-1))
               (JsonText.decimal_to_float false 25 (-1)) = float_of_int 4.
Proof.
  intros Ha Hb. repeat split.
  - now apply add_returns.
  - rewrite (add_returns a b fa fb w Ha Hb), (add_returns b a fb fa w Hb Ha).
    now rewrite float_add_comm.
Qed.

(** ** The handshake and the events of a run *)

Lemma call_events (h : handler) (params : json) (w w' : world) (r : result json) :
  call rt h params w = (r, w') ->
  exists evs, trace w' = trace w ++ evs /\ Forall dispatch_event evs.
Proof.
  intros H. destruct (call_trace _ _ _ _ _ H) as [->|[msgs ->]].
  - exists []. split; [now rewrite app_nil_r | constructor].
  - exists [Generate msgs]. split; [reflexivity|]. repeat constructor.
Qed.

Lemma loop_body_events (raw : string) (w w' : world) (r : result flow) :
  loop_body rt raw w = (r, w') ->
  exists evs, trace w' = trace w ++ evs /\ Forall dispatch_event evs.
Proof.
  intros Hb.
  assert (Hnone : forall e, (Raise e, w) = (r, w') ->
            exists evs, trace w' = trace w ++ evs /\ Forall dispatch_event evs).
  { intros e [= <- <-]. exists []. split; [now rewrite app_nil_r | constructor]. }
  destruct (json_loads rt raw) as [v|e] eqn:Hl.
  2:{ rewrite (loop_body_decode_fault _ _ _ Hl) in Hb. eauto. }
  destruct (is_object v) eqn:Hv.
  2:{ rewrite (loop_body_not_object _ _ _ Hl Hv) in Hb. eauto. }
  destruct v as [| | | | | |req]; try discriminate.
  destruct (methods_get_cases (request_method req)) as [Hm|[Hm|[h Hm]]].
  - rewrite (loop_body_unhashable _ _ _ Hl Hm) in Hb. eauto.
  - rewrite (loop_body_not_found _ _ _ Hl Hm) in Hb. injection Hb as <- <-.
    eexists. split; [reflexivity|]. repeat constructor.
  - destruct (call rt h (request_params req) w) as [[res|e] w1] eqn:Hc;
      destruct (call_events _ _ _ _ _ Hc) as (evs & Ht & Hevs).
    + rewrite (loop_body_return _ _ _ _ _ _ Hl Hm Hc) in Hb. injection Hb as <- <-.
      exists (evs ++ [Write (result_response res (request_id req))]).
      unfold emit. simpl. rewrite Ht, <- app_assoc. split; [reflexivity|].
      apply Forall_app. split; [assumption|]. repeat constructor.
    + rewrite (loop_body_raise _ _ _ _ _ _ Hl Hm Hc) in Hb. injection Hb as <- <-.
      now exists evs.
Qed.

Lemma dispatch_event_loop_event (e : event) : dispatch_event e -> loop_event e.
Proof.
  destruct e; simpl; auto.
Qed.

Lemma read_loop_events (stdin : list string) :
  forall w : world,
    exists evs,
      trace (final_world (_read_loop rt stdin w)) = trace w ++ evs
      /\ Forall loop_event evs.
Proof.
  induction stdin as [|raw rest IH]; intros w.
  - exists []. split; [simpl; now rewrite app_nil_r | constructor].
  - simpl. destruct (String.eqb raw "").
    + destruct (IH (emit Sleep (emit (Read raw) w))) as (evs & -> & Hevs).
      exists (Read raw :: Sleep :: evs). unfold emit. simpl.
      rewrite <- !app_assoc. split; [reflexivity|]. repeat constructor. assumption.
    + destruct (loop_body rt raw (emit (Read raw) w)) as [r w2] eqn:Hb.
      destruct (loop_body_events _ _ _ _ Hb) as (evs & Ht & Hevs).
      assert (Hloop : Forall loop_event (Read raw :: evs)).
      { constructor; [exact I|].
        eapply Forall_impl; [apply dispatch_event_loop_event | exact Hevs]. }
      unfold emit in Ht. simpl in Ht. rewrite <- app_assoc in Ht. simpl in Ht.
      destruct r as [[|]|e]; simpl.
      * destruct (IH w2) as (evs' & -> & Hevs').
        exists ((Read raw :: evs) ++ evs'). rewrite Ht, <- app_assoc.
        split; [reflexivity|]. apply Forall_app. now split.
      * now exists (Read raw :: evs).
      * now exists (Read raw :: evs).
Qed.

(** C9: [run] writes the handshake first, whatever the input: every line it
    reads and every frame it writes come after it, and none of the frames
    written after it is a notification, so the handshake is written exactly
    once.  Its capability list is, name by name, the list of the keys of
    [_methods]. *)
Theorem handshake_written_once_first (stdin : list string) (w : world) :
  exists evs,
    trace (final_world (run rt stdin w)) = trace w ++ Write handshake :: evs
    /\ Forall loop_event evs
    /\ is_notification handshake = true
    /\ handshake =
         JObj [ ("jsonrpc", JStr "2.0");
                ("method", JStr "mcp/server_ready");
                ("id", JInt 0);
                ("params",
                 JObj [ ("name", JStr "langchain-mcp");
                        ("version", JStr "0.1.0");
                        ("protocols", JArr [JStr "mcp/1.0"]);
                        ("capabilities", JArr (map JStr (map fst _methods))) ]) ].
Proof.
  unfold run, send_handshake, write.
  destruct (read_loop_events stdin (emit (Write handshake) w)) as (evs & Ht & Hevs).
  exists evs. rewrite Ht. unfold emit. simpl. rewrite <- app_assoc.
  repeat split. assumption.
Qed.

End Properties.

(** * The properties on concrete lines *)

(** The script of tests/test_rpc.py: the handshake, then one response per
    request, in order, the shutdown response last; the loop has then
    terminated with nothing left unread. *)
Example test_rpc_script :
  exists w,
    run test_runtime test_requests fresh = Terminated w []
    /\ written (trace w) =
         [ handshake;
           result_response tools_catalog (JInt 1);
           result_response (JObj [("echo", JStr "Hello, MCP!")]) (JInt 2);
           result_response (JObj [("sum", JFloat (float_of_int 42))]) (JInt 3);
           result_response (JStr "pong") (JInt 4);
           result_response (JStr "shutting down") (JInt 5) ].
Proof.
  eexists. split; vm_compute; reflexivity.
Qed.

Lemma undeclared_fault_leaves_loop_witness :
  _read_loop test_runtime [no_arguments_line; ping_line] fresh
    = Crashed TypeError (emit (Read no_arguments_line) fresh) [ping_line]
  /\ written (trace (emit (Read no_arguments_line) fresh)) = written (trace fresh).
Proof.
  apply (undeclared_fault_leaves_loop test_runtime no_arguments_line [ping_line] fresh
           (emit (Read no_arguments_line) fresh) no_arguments_request h_invoke_tool TypeError).
  - discriminate.
  - vm_compute; reflexivity.
  - vm_compute; reflexivity.
  - vm_compute; reflexivity.
  - reflexivity.
Defined.

(** C1 as the specification words it fails: [invoke_tool] called without
    "arguments" raises [TypeError], an undeclared fault, and the request is
    not answered with an Error response of code -32603; the loop ends with
    the fault and the next line stays unread. *)
Lemma undeclared_fault_counterexample :
  call test_runtime h_invoke_tool (request_params no_arguments_request)
       (emit (Read no_arguments_line) fresh)
    = (Raise TypeError, emit (Read no_arguments_line) fresh)
  /\ is_declared TypeError = false
  /\ ~ answers_with_error test_runtime (-32603) (JInt 8) no_arguments_line
         (emit (Read no_arguments_line) fresh)
  /\ _read_loop test_runtime [no_arguments_line; ping_line] fresh
     = Crashed TypeError (emit (Read no_arguments_line) fresh) [ping_line].
Proof.
  repeat split; try (vm_compute; reflexivity).
  intros [frame [H _]]. vm_compute in H. discriminate.
Qed.

Lemma malformed_line_leaves_loop_witness :
  _read_loop test_runtime [garbage_line; ping_line] fresh
    = Crashed JSONDecodeError (emit (Read garbage_line) fresh) [ping_line]
  /\ written (trace (emit (Read garbage_line) fresh)) = written (trace fresh).
Proof.
  apply (malformed_line_leaves_loop test_runtime garbage_line [ping_line] fresh).
  - discriminate.
  - vm_compute. exact I.
Defined.

(** C2 as the specification words it fails: the line [not json] is not
    answered with an Error response of code -32700 and id null; the decoder's
    fault ends the loop and the next line stays unread.  A line that is JSON
    but not an object ends it with [AttributeError]. *)
Lemma malformed_line_counterexample :
  json_loads test_runtime garbage_line = Raise JSONDecodeError
  /\ ~ answers_with_error test_runtime (-32700) JNull garbage_line
         (emit (Read garbage_line) fresh)
  /\ _read_loop test_runtime [garbage_line; ping_line] fresh
     = Crashed JSONDecodeError (emit (Read garbage_line) fresh) [ping_line]
  /\ ~ answers_with_error test_runtime (-32700) JNull array_line
         (emit (Read array_line) fresh)
  /\ _read_loop test_runtime [array_line; ping_line] fresh
     = Crashed AttributeError (emit (Read array_line) fresh) [ping_line].
Proof.
  repeat split; try (vm_compute; reflexivity);
    intros [frame [H _]]; vm_compute in H; discriminate.
Qed.

(** The failing input of C3: the request is not answered, the declared
    error ends the loop. *)
Lemma unknown_tool_error_leaves_loop_witness :
  invoke_tool test_runtime (JStr "resize") (JObj []) (emit (Read unknown_tool_line) fresh)
    = (Raise (JsonRpcError (-32001) "Unknown tool: resize" JNull),
       emit (Read unknown_tool_line) fresh)
  /\ is_declared (JsonRpcError (-32001) "Unknown tool: resize" JNull) = true
  /\ _read_loop test_runtime [unknown_tool_line; ping_line] fresh
     = Crashed (JsonRpcError (-32001) "Unknown tool: resize" JNull)
         (emit (Read unknown_tool_line) fresh) [ping_line]
  /\ written (trace (emit (Read unknown_tool_line) fresh)) = written (trace fresh).
Proof.
  apply (unknown_tool_error_leaves_loop test_runtime unknown_tool_line [ping_line] fresh
           unknown_tool_request
           [("name", JStr "resize"); ("arguments", JObj [])] "resize" (JObj [])).
  - discriminate.
  - vm_compute; reflexivity.
  - reflexivity.
  - reflexivity.
  - reflexivity.
  - discriminate.
  - discriminate.
  - discriminate.
Defined.

(** An id that is a number, on an Error response; an id that is a string and
    the id null, on Result responses; and a request that has no response. *)
Lemma response_carries_request_id_witness :
  (exists w',
     loop_body test_runtime resize_line fresh = (Return Continue, w')
     /\ written (trace w') =
          written (trace fresh)
          ++ [error_response (-32601) "Unknown method resize" (JInt 7)])
  /\ (exists fl w',
        loop_body test_runtime ping_line fresh = (Return fl, w')
        /\ written (trace w') =
             written (trace fresh) ++ [result_response (JStr "pong") (JStr "req-7")])
  /\ (exists fl w',
        loop_body test_runtime ping_null_line fresh = (Return fl, w')
        /\ written (trace w') =
             written (trace fresh) ++ [result_response (JStr "pong") JNull])
  /\ (exists w',
        loop_body test_runtime no_arguments_line fresh = (Raise TypeError, w')
        /\ written (trace w') = written (trace fresh)).
Proof.
  split; [|split; [|split]].
  - apply (response_carries_request_id test_runtime resize_line resize_request fresh).
    vm_compute; reflexivity.
  - apply (response_carries_request_id test_runtime ping_line ping_request fresh).
    vm_compute; reflexivity.
  - apply (response_carries_request_id test_runtime ping_null_line ping_null_request fresh).
    vm_compute; reflexivity.
  - apply (response_carries_request_id test_runtime no_arguments_line no_arguments_request
             fresh).
    + vm_compute; reflexivity.
    + reflexivity.
Defined.

(** C4 as the specification words it fails: the request of id 8, an object
    with a number for id, a string for method and a mapping for params, has
    no response.  Its handler raises [TypeError], nothing is written and the
    loop ends there.  The same holds of the request of id 9, whose handler
    raises the error of an unknown tool. *)
Lemma response_id_counterexample :
  json_loads test_runtime no_arguments_line = Return (JObj no_arguments_request)
  /\ valid_request no_arguments_request = true
  /\ request_id no_arguments_request = JInt 8
  /\ ~ answered_under_its_id test_runtime no_arguments_line no_arguments_request
         (emit (Read no_arguments_line) fresh)
  /\ written (trace (final_world (_read_loop test_runtime [no_arguments_line] fresh))) = []
  /\ json_loads test_runtime unknown_tool_line = Return (JObj unknown_tool_request)
  /\ valid_request unknown_tool_request = true
  /\ request_id unknown_tool_request = JInt 9
  /\ ~ answered_under_its_id test_runtime unknown_tool_line unknown_tool_request
         (emit (Read unknown_tool_line) fresh)
  /\ written (trace (final_world (_read_loop test_runtime [unknown_tool_line] fresh))) = [].
Proof.
  repeat split; try (vm_compute; reflexivity);
    intros [frame [H _]]; vm_compute in H; discriminate.
Qed.


Lemma shutdown_ends_loop_witness :
  _read_loop test_runtime [shutdown_line; ping_line] fresh =
    Terminated
      {| self := {| _shutdown_requested := true |};
         trace := [Read shutdown_line;
                   Write (result_response (JStr "shutting down") (JInt 5))] |}
      [ping_line].
Proof.
  apply (shutdown_ends_loop test_runtime shutdown_line [ping_line] fresh shutdown_request []).
  - discriminate.
  - vm_compute; reflexivity.
  - reflexivity.
  - reflexivity.
Defined.

(** C6 as the specification words it fails: a shutdown request whose params
    hold the key "self" gives the bound method a second value for [self];
    the call raises [TypeError], no result is written and the loop ends with
    the fault. *)
Lemma shutdown_counterexample :
  (exists req, json_loads test_runtime shutdown_self_line = Return (JObj req)
               /\ request_method req = JStr "shutdown")
  /\ ~ answers_and_terminates test_runtime shutdown_self_line
         (emit (Read shutdown_self_line) fresh)
  /\ _read_loop test_runtime [shutdown_self_line; ping_line] fresh
     = Crashed TypeError (emit (Read shutdown_self_line) fresh) [ping_line]
  /\ written (trace (emit (Read shutdown_self_line) fresh)) = [].
Proof.
  split; [eexists; split; vm_compute; reflexivity|].
  repeat split; try (vm_compute; reflexivity).
  intros (res & mid & w' & H & _). vm_compute in H. discriminate.
Qed.

Lemma add_returns_double_sum_witness :
  invoke_tool test_runtime (JStr "add") (JObj [("a", JInt 40); ("b", JInt 2)]) fresh
    = (Return (JObj [("sum", JFloat (float_of_int 42))]), fresh).
Proof.
  apply (add_returns_double_sum test_runtime (JInt 40) (JInt 2)
           (float_of_int 40) (float_of_int 2) fresh); reflexivity.
Defined.

(** C8 as the specification words it fails: with a = 2^53 and b = 1 the
    tool returns 2^53 as a double, which is not a + b = 2^53 + 1. *)
Lemma add_counterexample :
  ~ add_returns_spec_sum test_runtime (JInt (2 ^ 53)) (JInt 1).
Proof.
  intros (s & expected & H1 & H2 & H3).
  vm_compute in H1. injection H1 as <-.
  vm_compute in H2. injection H2 as <-.
  vm_compute in H3. discriminate.
Qed.

(** An integer too large for a double is not added at all. *)
Example add_overflow :
  invoke_tool test_runtime (JStr "add") (JObj [("a", JInt (2 ^ 1024)); ("b", JInt 0)]) fresh
    = (Raise OverflowError, fresh).
Proof.
  vm_compute; reflexivity.
Qed.

Lemma invoke_tool_bad_keywords_witness :
  call test_runtime h_invoke_tool (JObj [("name", JStr "echo")])
       (emit (Read no_arguments_line) fresh)
    = (Raise TypeError, emit (Read no_arguments_line) fresh)
  /\ is_declared TypeError = false
  /\ _read_loop test_runtime [no_arguments_line; ping_line] fresh
     = Crashed TypeError (emit (Read no_arguments_line) fresh) [ping_line]
  /\ written (trace (emit (Read no_arguments_line) fresh)) = written (trace fresh).
Proof.
  apply (invoke_tool_bad_keywords test_runtime no_arguments_line [ping_line] fresh
           no_arguments_request [("name", JStr "echo")]).
  - discriminate.
  - vm_compute; reflexivity.
  - reflexivity.
  - reflexivity.
  - right; left. reflexivity.
Defined.

(** The same with by-position params: [handler( **params )] needs a
    mapping. *)
Example shutdown_positional :
  ~ answers_and_terminates test_runtime shutdown_positional_line
      (emit (Read shutdown_positional_line) fresh)
  /\ _read_loop test_runtime [shutdown_positional_line; ping_line] fresh
     = Crashed TypeError (emit (Read shutdown_positional_line) fresh) [ping_line].
Proof.
  split; [|vm_compute; reflexivity].
  intros (res & mid & w' & H & _). vm_compute in H. discriminate.
Qed.

(** An echo with escapes in its message, from the line to the frame. *)
Example echo_escapes :
  written (trace (final_world (_read_loop test_runtime [echo_escapes_line] fresh)))
    = [result_response (JObj [("echo", JStr escapes_message)]) (JInt 10)].
Proof.
  vm_compute; reflexivity.
Qed.

(** 1.5 and 2.5, read from JSON text, add up to 4.0. *)
Example add_decimals :
  exists a b,
    JsonText.loads "[1.5, 2.5]" = Return (JArr [a; b])
    /\ invoke_tool test_runtime (JStr "add") (JObj [("a", a); ("b", b)]) fresh
       = (Return (JObj [("sum", JFloat (float_of_int 4))]), fresh).
Proof.
  do 2 eexists. split; vm_compute; reflexivity.
Qed.

(** * Further properties of the server *)

Section Runs.

Variable rt : Runtime.

(** ** What one pass of the loop body leaves behind *)

Lemma call_self (h : handler) (params : json) (w w' : world) (r : result json) :
  call rt h params w = (r, w') ->
  self w' = match h, r with
            | h_shutdown, Return _ => {| _shutdown_requested := true |}
            | _, _ => self w
            end.
Proof.
  unfold call, abind, lift. destruct (kwargs params) as [kw|e].
  2:{ intros [= <- <-]. now destruct h. }
  destruct h.
  - unfold list_tools, ret. now intros [= <- <-].
  - destruct (bind_name_arguments kw) as [[name arguments]|e].
    2:{ now intros [= <- <-]. }
    simpl. unfold invoke_tool.
    destruct (eq_str name "echo"). { unfold lift. now intros [= <- <-]. }
    destruct (eq_str name "add"). { unfold lift. now intros [= <- <-]. }
    destruct (eq_str name "chat"). 2:{ unfold raise. now intros [= <- <-]. }
    unfold abind, lift.
    match goal with |- context [match ?x with Return _ => _ | Raise _ => _ end] =>
      destruct x as [msgs|e] end.
    2:{ now intros [= <- <-]. }
    unfold call_agenerate.
    destruct (agenerate rt (generate_calls (trace w)) msgs); unfold ret;
      now intros [= <- <-].
  - unfold ping, ret. now intros [= <- <-].
  - unfold shutdown. now intros [= <- <-].
Qed.

Lemma methods_get_shutdown (method : json) (h : handler) :
  methods_get method = Return (Some h) ->
  eq_str method "shutdown" = match h with h_shutdown => true | _ => false end.
Proof.
  destruct method; try discriminate. simpl.
  destruct (String.eqb_spec s "list_tools") as [->|_]; [now intros [= <-]|].
  destruct (String.eqb_spec s "invoke_tool") as [->|_]; [now intros [= <-]|].
  destruct (String.eqb_spec s "ping") as [->|_]; [now intros [= <-]|].
  destruct (String.eqb_spec s "shutdown") as [->|_]; [now intros [= <-]|].
  discriminate.
Qed.

(** The body either raises, having written nothing and left the server
    object alone, or writes the one frame that answers the line; on the way
    the handler may have called the model once.  It breaks exactly when the
    shutdown handler has set the flag. *)
Lemma loop_body_inv (raw : string) (w w' : world) (r : result flow) :
  loop_body rt raw w = (r, w') ->
  exists w1,
    (trace w1 = trace w \/ exists msgs, trace w1 = trace w ++ [Generate msgs])
    /\ match r with
       | Raise _ => w' = w1 /\ self w1 = self w
       | Return f =>
           (exists frame, answers rt raw frame /\ w' = emit (Write frame) w1)
           /\ self w1 = match f with
                        | Break => {| _shutdown_requested := true |}
                        | Continue => self w
                        end
       end.
Proof.
  intros Hb.
  assert (Hnone : forall e, (Raise e, w) = (r, w') ->
            exists w1,
              (trace w1 = trace w \/ exists msgs, trace w1 = trace w ++ [Generate msgs])
              /\ match r with
                 | Raise _ => w' = w1 /\ self w1 = self w
                 | Return f =>
                     (exists frame, answers rt raw frame /\ w' = emit (Write frame) w1)
                     /\ self w1 = match f with
                                  | Break => {| _shutdown_requested := true |}
                                  | Continue => self w
                                  end
                 end).
  { intros e [= <- <-]. exists w. auto. }
  destruct (json_loads rt raw) as [v|e] eqn:Hl.
  2:{ rewrite (loop_body_decode_fault _ _ _ _ Hl) in Hb. eauto. }
  destruct (is_object v) eqn:Hv.
  2:{ rewrite (loop_body_not_object _ _ _ _ Hl Hv) in Hb. eauto. }
  destruct v as [| | | | | |req]; try discriminate.
  destruct (methods_get_cases (request_method req)) as [Hm|[Hm|[h Hm]]].
  - rewrite (loop_body_unhashable _ _ _ _ Hl Hm) in Hb. eauto.
  - rewrite (loop_body_not_found _ _ _ _ Hl Hm) in Hb.
    rewrite (not_found_is_not_shutdown _ Hm) in Hb. injection Hb as <- <-.
    exists w. split; [now left|]. split; [|reflexivity].
    eexists. split; [|reflexivity]. exists req. split; [assumption|]. now right.
  - destruct (call rt h (request_params req) w) as [[res|e] w1] eqn:Hc;
      pose proof (call_trace _ _ _ _ _ _ Hc) as Ht;
      pose proof (call_self _ _ _ _ _ Hc) as Hs.
    + rewrite (loop_body_return _ _ _ _ _ _ _ Hl Hm Hc) in Hb.
      rewrite (methods_get_shutdown _ _ Hm) in Hb. injection Hb as <- <-.
      exists w1. split; [assumption|]. split.
      * eexists. split; [|reflexivity]. exists req. split; [assumption|].
        left. now exists res.
      * rewrite Hs. now destruct h.
    + rewrite (loop_body_raise _ _ _ _ _ _ _ Hl Hm Hc) in Hb. injection Hb as <- <-.
      exists w1. split; [assumption|]. split; [reflexivity|].
      rewrite Hs. now destruct h.
Qed.

Lemma written_generate (t : list event) (msgs : list lc_message) :
  written (t ++ [Generate msgs]) = written t.
Proof.
  unfold written. rewrite flat_map_app. simpl. apply app_nil_r.
Qed.

Lemma reads_generate (t : list event) (msgs : list lc_message) :
  reads (t ++ [Generate msgs]) = reads t.
Proof.
  unfold reads. rewrite flat_map_app. simpl. apply app_nil_r.
Qed.

Lemma loop_body_written (raw : string) (w w' : world) (r : result flow) :
  loop_body rt raw w = (r, w') ->
  match r with
  | Raise _ => written (trace w') = written (trace w)
  | Return _ =>
      exists frame, answers rt raw frame
                    /\ written (trace w') = written (trace w) ++ [frame]
  end.
Proof.
  intros Hb. destruct (loop_body_inv _ _ _ _ Hb) as (w1 & Ht & Hr).
  assert (Hw : written (trace w1) = written (trace w)).
  { destruct Ht as [->|[msgs ->]]; [reflexivity | apply written_generate]. }
  destruct r as [f|e].
  - destruct Hr as [(frame & Ha & ->) _]. exists frame. split; [assumption|].
    now rewrite written_emit, Hw.
  - destruct Hr as [-> _]. assumption.
Qed.

Lemma loop_body_reads (raw : string) (w w' : world) (r : result flow) :
  loop_body rt raw w = (r, w') -> reads (trace w') = reads (trace w).
Proof.
  intros Hb. destruct (loop_body_inv _ _ _ _ Hb) as (w1 & Ht & Hr).
  assert (Hw : reads (trace w1) = reads (trace w)).
  { destruct Ht as [->|[msgs ->]]; [reflexivity | apply reads_generate]. }
  destruct r as [f|e].
  - destruct Hr as [(frame & Ha & ->) _]. rewrite reads_emit, Hw. apply app_nil_r.
  - destruct Hr as [-> _]. assumption.
Qed.

Lemma loop_body_self (raw : string) (w w' : world) (r : result flow) :
  loop_body rt raw w = (r, w') ->
  self w' = match r with
            | Return Break => {| _shutdown_requested := true |}
            | _ => self w
            end.
Proof.
  intros Hb. destruct (loop_body_inv _ _ _ _ Hb) as (w1 & Ht & Hr).
  destruct r as [f|e].
  - destruct Hr as [(frame & Ha & ->) Hs]. simpl. rewrite Hs. now destruct f.
  - destruct Hr as [-> Hs]. assumption.
Qed.

(** ** Requests and responses along a run *)

Lemma lines_of_cons (raw : string) (stdin : list string) :
  lines_of (raw :: stdin) = if String.eqb raw "" then lines_of stdin else raw :: lines_of stdin.
Proof.
  unfold lines_of. simpl. now destruct (String.eqb raw "").
Qed.

Lemma read_loop_answers (stdin : list string) :
  forall w : world,
    exists consumed frames,
      stdin = consumed ++ unread_of (_read_loop rt stdin w)
      /\ written (trace (final_world (_read_loop rt stdin w))) = written (trace w) ++ frames
      /\ match _read_loop rt stdin w with
         | Crashed _ _ _ =>
             exists answered bad,
               lines_of consumed = answered ++ [bad]
               /\ Forall2 (answers rt) answered frames
         | _ => Forall2 (answers rt) (lines_of consumed) frames
         end.
Proof.
  induction stdin as [|raw rest IH]; intros w.
  - exists [], []. simpl. rewrite app_nil_r. repeat split. constructor.
  - simpl. destruct (String.eqb raw "") eqn:He.
    + destruct (IH (emit Sleep (emit (Read raw) w))) as (consumed & frames & Hs & Hw & Hf).
      exists (raw :: consumed), frames. split; [simpl; now f_equal|].
      split.
      * rewrite Hw, !written_emit. now rewrite !app_nil_r.
      * rewrite lines_of_cons, He. exact Hf.
    + destruct (loop_body rt raw (emit (Read raw) w)) as [r w2] eqn:Hb.
      pose proof (loop_body_written _ _ _ _ Hb) as Hw2.
      rewrite written_emit, app_nil_r in Hw2.
      destruct r as [[|]|e].
      * destruct Hw2 as (frame & Ha & Hw2).
        destruct (IH w2) as (consumed & frames & Hs & Hw & Hf).
        exists (raw :: consumed), (frame :: frames). split; [simpl; now f_equal|].
        split; [rewrite Hw, Hw2, <- app_assoc; reflexivity|].
        rewrite lines_of_cons, He.
        destruct (_read_loop rt rest w2).
        -- now constructor.
        -- destruct Hf as (answered & bad & Hl & Hf).
           exists (raw :: answered), bad. rewrite Hl. split; [reflexivity|].
           now constructor.
        -- now constructor.
      * destruct Hw2 as (frame & Ha & Hw2).
        exists [raw], [frame]. split; [reflexivity|]. split; [assumption|].
        rewrite lines_of_cons, He. repeat constructor. assumption.
      * exists [raw], []. split; [reflexivity|].
        split; [simpl; now rewrite app_nil_r|].
        exists [], raw. rewrite lines_of_cons, He. split; [reflexivity | constructor].
Qed.

(** Responses come one per line, in the order of the lines, each under the
    id of its request.  Of the input, a prefix is consumed and the rest is
    left unread; the frames written are the answers to the lines consumed,
    in order, all of them if the loop is still reading or has terminated,
    all but the last if a fault ended it at that line. *)
Theorem responses_follow_requests (stdin : list string) (w : world) :
  exists consumed frames,
    stdin = consumed ++ unread_of (_read_loop rt stdin w)
    /\ written (trace (final_world (_read_loop rt stdin w))) = written (trace w) ++ frames
    /\ match _read_loop rt stdin w with
       | Crashed _ _ _ =>
           exists answered bad,
             lines_of consumed = answered ++ [bad]
             /\ Forall2 (answers rt) answered frames
       | _ => Forall2 (answers rt) (lines_of consumed) frames
       end.
Proof.
  apply read_loop_answers.
Qed.

Lemma answers_shape (raw : string) (frame : json) :
  answers rt raw frame ->
  (exists res mid, frame = result_response res mid)
  \/ (exists message mid, frame = error_response (-32601) message mid).
Proof.
  intros (req & _ & [[res ->]| ->]); [left|right]; eauto.
Qed.

Lemma Forall2_right {A B : Type} (R : A -> B -> Prop) (P : B -> Prop) :
  (forall a b, R a b -> P b) ->
  forall la lb, Forall2 R la lb -> Forall P lb.
Proof.
  intros H la lb HF. induction HF; constructor; eauto.
Qed.

(** The loop writes result responses and one kind of error response only:
    whatever the input, every frame it writes is a result or the error of
    code -32601; no other error code ever reaches the peer. *)
Theorem only_method_not_found_is_reported (stdin : list string) (w : world) :
  exists frames,
    written (trace (final_world (_read_loop rt stdin w))) = written (trace w) ++ frames
    /\ Forall (fun frame =>
                 (exists res mid, frame = result_response res mid)
                 \/ (exists message mid, frame = error_response (-32601) message mid))
              frames.
Proof.
  destruct (read_loop_answers stdin w) as (consumed & frames & _ & Hw & Hf).
  exists frames. split; [assumption|].
  destruct (_read_loop rt stdin w).
  - eapply Forall2_right; [apply answers_shape | exact Hf].
  - destruct Hf as (answered & bad & _ & Hf).
    eapply Forall2_right; [apply answers_shape | exact Hf].
  - eapply Forall2_right; [apply answers_shape | exact Hf].
Qed.

(** The results of [readline] are taken in order and none is skipped: what
    the loop has read is a prefix of the input, what it leaves unread is the
    rest. *)
Theorem lines_read_in_order (stdin : list string) :
  forall w : world,
    exists consumed,
      stdin = consumed ++ unread_of (_read_loop rt stdin w)
      /\ reads (trace (final_world (_read_loop rt stdin w))) = reads (trace w) ++ consumed.
Proof.
  induction stdin as [|raw rest IH]; intros w.
  - exists []. simpl. now rewrite app_nil_r.
  - simpl. destruct (String.eqb raw "").
    + destruct (IH (emit Sleep (emit (Read raw) w))) as (consumed & Hs & Hr).
      exists (raw :: consumed). split; [simpl; now f_equal|].
      rewrite Hr, !reads_emit, app_nil_r, <- app_assoc. reflexivity.
    + destruct (loop_body rt raw (emit (Read raw) w)) as [r w2] eqn:Hb.
      pose proof (loop_body_reads _ _ _ _ Hb) as Hr2. rewrite reads_emit in Hr2.
      destruct r as [[|]|e].
      * destruct (IH w2) as (consumed & Hs & Hr).
        exists (raw :: consumed). split; [simpl; now f_equal|].
        rewrite Hr, Hr2, <- app_assoc. reflexivity.
      * exists [raw]. simpl. now split.
      * exists [raw]. simpl. now split.
Qed.

(** [_shutdown_requested] is written by the shutdown handler and read by
    nobody; at the end of a run it is set exactly when it was set before or
    the loop has left by [break]. *)
Theorem flag_set_iff_break (stdin : list string) :
  forall w : world,
    _shutdown_requested (self (final_world (_read_loop rt stdin w)))
    = _shutdown_requested (self w) || is_terminated (_read_loop rt stdin w).
Proof.
  induction stdin as [|raw rest IH]; intros w.
  - simpl. now rewrite orb_false_r.
  - simpl. destruct (String.eqb raw "").
    + now rewrite IH.
    + destruct (loop_body rt raw (emit (Read raw) w)) as [r w2] eqn:Hb.
      pose proof (loop_body_self _ _ _ _ Hb) as Hs.
      destruct r as [[|]|e]; simpl in *.
      * now rewrite IH, Hs.
      * rewrite Hs. simpl. now rewrite orb_true_r.
      * rewrite Hs. now rewrite orb_false_r.
Qed.

(** End of input does not end the loop: on results of [readline] that are
    all empty it sleeps after each one and is still polling afterwards; it
    has written nothing and the server object is as before. *)
Theorem end_of_input_keeps_polling (stdin : list string) :
  forall w : world,
    Forall (fun raw => raw = "") stdin ->
    _read_loop rt stdin w =
      Polling {| self := self w;
                 trace := trace w ++ flat_map (fun raw => [Read raw; Sleep]) stdin |}.
Proof.
  induction stdin as [|raw rest IH]; intros w H.
  - simpl. rewrite app_nil_r. now destruct w.
  - inversion H as [|? ? Hraw Hrest]; subst. simpl.
    rewrite (IH _ Hrest). unfold emit. simpl. now rewrite <- !app_assoc.
Qed.

(** ** Empty reads are invisible *)

Lemma generate_calls_app (t u : list event) :
  generate_calls (t ++ u) = generate_calls t + generate_calls u.
Proof.
  unfold generate_calls. now rewrite filter_app, length_app.
Qed.

Lemma generate_calls_emit (e : event) (w : world) :
  generate_calls (trace (emit e w))
  = generate_calls (trace w) + match e with Generate _ => 1 | _ => 0 end.
Proof.
  unfold emit. simpl. rewrite generate_calls_app. f_equal. now destruct e.
Qed.

Lemma same_view_emit (e : event) (w1 w2 : world) :
  same_view w1 w2 -> same_view (emit e w1) (emit e w2).
Proof.
  intros (Hs & Hg & Hw). unfold same_view. rewrite !written_emit, Hw.
  unfold emit. simpl. rewrite !generate_calls_app, Hg. auto.
Qed.

Lemma same_view_quiet (e : event) (w1 w2 : world) :
  match e with Read _ | Sleep => True | _ => False end ->
  same_view w1 w2 -> same_view (emit e w1) w2.
Proof.
  intros He (Hs & Hg & Hw). unfold same_view. rewrite written_emit, <- Hw.
  unfold emit. simpl. rewrite generate_calls_app, <- Hg.
  destruct e; try contradiction; simpl; rewrite app_nil_r; auto.
Qed.

(** A handler sees of the world the number of model calls made so far, and
    nothing else. *)
Lemma call_same_view (h : handler) (params : json) (w1 w2 w1' w2' : world)
  (r1 r2 : result json) :
  same_view w1 w2 ->
  call rt h params w1 = (r1, w1') ->
  call rt h params w2 = (r2, w2') ->
  r1 = r2 /\ same_view w1' w2'.
Proof.
  intros Hv. unfold call, abind, lift. destruct (kwargs params) as [kw|e].
  2:{ now intros [= <- <-] [= <- <-]. }
  destruct h.
  - unfold list_tools, ret. now intros [= <- <-] [= <- <-].
  - destruct (bind_name_arguments kw) as [[name arguments]|e].
    2:{ now intros [= <- <-] [= <- <-]. }
    simpl. unfold invoke_tool.
    destruct (eq_str name "echo"). { unfold lift. now intros [= <- <-] [= <- <-]. }
    destruct (eq_str name "add"). { unfold lift. now intros [= <- <-] [= <- <-]. }
    destruct (eq_str name "chat"). 2:{ unfold raise. now intros [= <- <-] [= <- <-]. }
    unfold abind, lift.
    match goal with |- context [match ?x with Return _ => _ | Raise _ => _ end] =>
      destruct x as [msgs|e] end.
    2:{ now intros [= <- <-] [= <- <-]. }
    unfold call_agenerate.
    destruct Hv as (Hs & Hg & Hw). rewrite Hg.
    destruct (agenerate rt (generate_calls (trace w2)) msgs); unfold ret;
      intros [= <- <-] [= <- <-]; (split; [reflexivity|]);
      apply same_view_emit; repeat split; assumption.
  - unfold ping, ret. now intros [= <- <-] [= <- <-].
  - unfold shutdown. intros [= <- <-] [= <- <-]. split; [reflexivity|].
    destruct Hv as (Hs & Hg & Hw). repeat split; assumption.
Qed.

Lemma loop_body_same_view (raw : string) (w1 w2 w1' w2' : world) (r1 r2 : result flow) :
  same_view w1 w2 ->
  loop_body rt raw w1 = (r1, w1') ->
  loop_body rt raw w2 = (r2, w2') ->
  r1 = r2 /\ same_view w1' w2'.
Proof.
  intros Hv H1 H2.
  destruct (json_loads rt raw) as [v|e] eqn:Hl.
  2:{ rewrite (loop_body_decode_fault rt raw e w1 Hl) in H1.
      rewrite (loop_body_decode_fault rt raw e w2 Hl) in H2.
      injection H1 as <- <-. injection H2 as <- <-. auto. }
  destruct (is_object v) eqn:Hobj.
  2:{ rewrite (loop_body_not_object rt raw v w1 Hl Hobj) in H1.
      rewrite (loop_body_not_object rt raw v w2 Hl Hobj) in H2.
      injection H1 as <- <-. injection H2 as <- <-. auto. }
  destruct v as [| | | | | |req]; try discriminate.
  destruct (methods_get_cases (request_method req)) as [Hm|[Hm|[h Hm]]].
  - rewrite (loop_body_unhashable rt raw req w1 Hl Hm) in H1.
    rewrite (loop_body_unhashable rt raw req w2 Hl Hm) in H2.
    injection H1 as <- <-. injection H2 as <- <-. auto.
  - rewrite (loop_body_not_found rt raw req w1 Hl Hm) in H1.
    rewrite (loop_body_not_found rt raw req w2 Hl Hm) in H2.
    injection H1 as <- <-. injection H2 as <- <-.
    split; [reflexivity | now apply same_view_emit].
  - destruct (call rt h (request_params req) w1) as [r1c w1c] eqn:Hc1.
    destruct (call rt h (request_params req) w2) as [r2c w2c] eqn:Hc2.
    destruct (call_same_view _ _ _ _ _ _ _ _ Hv Hc1 Hc2) as [<- Hvc].
    destruct r1c as [res|e].
    + rewrite (loop_body_return _ _ _ _ _ _ _ Hl Hm Hc1) in H1.
      rewrite (loop_body_return _ _ _ _ _ _ _ Hl Hm Hc2) in H2.
      injection H1 as <- <-. injection H2 as <- <-.
      split; [reflexivity | now apply same_view_emit].
    + rewrite (loop_body_raise _ _ _ _ _ _ _ Hl Hm Hc1) in H1.
      rewrite (loop_body_raise _ _ _ _ _ _ _ Hl Hm Hc2) in H2.
      injection H1 as <- <-. injection H2 as <- <-. auto.
Qed.

(** Empty results of [readline] change nothing a peer can see: the run on
    an input and the run on its lines alone end the same way, with the same
    server object and the same frames written. *)
Theorem empty_reads_are_invisible (stdin : list string) :
  forall w1 w2 : world,
    same_view w1 w2 ->
    same_outcome (_read_loop rt stdin w1) (_read_loop rt (lines_of stdin) w2).
Proof.
  induction stdin as [|raw rest IH]; intros w1 w2 Hv.
  - exact Hv.
  - rewrite lines_of_cons. simpl. destruct (String.eqb raw "") eqn:He.
    + apply IH. now do 2 (apply same_view_quiet; [exact I|]).
    + simpl. rewrite He.
      destruct (loop_body rt raw (emit (Read raw) w1)) as [r1 w1'] eqn:H1.
      destruct (loop_body rt raw (emit (Read raw) w2)) as [r2 w2'] eqn:H2.
      destruct (loop_body_same_view _ _ _ _ _ _ _ (same_view_emit (Read raw) _ _ Hv) H1 H2)
        as [<- Hv'].
      destruct r1 as [[|]|e]; simpl; auto.
Qed.

(** ** Who calls the model *)

Lemma methods_get_invoke_tool (method : json) :
  methods_get method = Return (Some h_invoke_tool) -> method = JStr "invoke_tool".
Proof.
  destruct method; try discriminate. simpl.
  destruct (String.eqb_spec s "list_tools"); [discriminate|].
  destruct (String.eqb_spec s "invoke_tool") as [->|]; [reflexivity|].
  destruct (String.eqb_spec s "ping"); [discriminate|].
  destruct (String.eqb_spec s "shutdown"); discriminate.
Qed.

(** The model is called by the chat tool and by nothing else, once per
    request at most: a pass of the loop body that changes the number of
    model calls has decoded an [invoke_tool] request whose tool name is
    "chat", and has added exactly one call. *)
Theorem only_chat_calls_the_model (raw : string) (w w' : world) (r : result flow) :
  loop_body rt raw w = (r, w') ->
  generate_calls (trace w') <> generate_calls (trace w) ->
  exists req ps,
    json_loads rt raw = Return (JObj req)
    /\ request_method req = JStr "invoke_tool"
    /\ request_params req = JObj ps
    /\ dict_get "name" ps = Some (JStr "chat")
    /\ generate_calls (trace w') = S (generate_calls (trace w)).
Proof.
  intros Hb Hne.
  destruct (json_loads rt raw) as [v|e] eqn:Hl.
  2:{ rewrite (loop_body_decode_fault _ _ _ _ Hl) in Hb.
      injection Hb as <- <-. contradiction. }
  destruct (is_object v) eqn:Hobj.
  2:{ rewrite (loop_body_not_object _ _ _ _ Hl Hobj) in Hb.
      injection Hb as <- <-. contradiction. }
  destruct v as [| | | | | |req]; try discriminate.
  assert (Hquiet : forall f w1, generate_calls (trace (emit (Write f) w1))
                                = generate_calls (trace w1)).
  { intros f w1. rewrite generate_calls_emit. lia. }
  destruct (methods_get_cases (request_method req)) as [Hm|[Hm|[h Hm]]].
  - rewrite (loop_body_unhashable _ _ _ _ Hl Hm) in Hb.
    injection Hb as <- <-. contradiction.
  - rewrite (loop_body_not_found _ _ _ _ Hl Hm) in Hb.
    injection Hb as <- <-. rewrite Hquiet in Hne. contradiction.
  - assert (Hcall : forall rc wc,
              call rt h (request_params req) w = (rc, wc) ->
              generate_calls (trace wc) <> generate_calls (trace w) ->
              request_method req = JStr "invoke_tool"
              /\ (exists ps, request_params req = JObj ps
                             /\ dict_get "name" ps = Some (JStr "chat"))
              /\ generate_calls (trace wc) = S (generate_calls (trace w))).
    { intros rc wc. unfold call, abind, lift.
      destruct (request_params req) as [| | | | | |ps] eqn:Hps;
        try (simpl; intros [= <- <-] Hn; contradiction).
      unfold kwargs. destruct (has_key "self" ps).
      { intros [= <- <-] Hn. contradiction. }
      destruct h;
        try (unfold list_tools, ping, shutdown, ret; simpl;
             intros [= <- <-] Hn; contradiction).
      unfold bind_name_arguments.
      destruct (forallb _ (dict_keys ps)).
      2:{ intros [= <- <-] Hn. contradiction. }
      destruct (dict_get "name" ps) as [name|] eqn:Hname.
      2:{ intros [= <- <-] Hn. contradiction. }
      destruct (dict_get "arguments" ps) as [arguments|].
      2:{ intros [= <- <-] Hn. contradiction. }
      simpl. unfold invoke_tool.
      destruct (eq_str name "echo").
      { unfold lift. intros [= <- <-] Hn. contradiction. }
      destruct (eq_str name "add").
      { unfold lift. intros [= <- <-] Hn. contradiction. }
      destruct (eq_str name "chat") eqn:Hchat.
      2:{ unfold raise. intros [= <- <-] Hn. contradiction. }
      apply eq_str_true in Hchat. subst name.
      unfold abind, lift.
      match goal with |- context [match ?x with Return _ => _ | Raise _ => _ end] =>
        destruct x as [msgs|e] end.
      2:{ intros [= <- <-] Hn. contradiction. }
      unfold call_agenerate.
      pose proof (methods_get_invoke_tool _ Hm) as Hmeth.
      destruct (agenerate rt (generate_calls (trace w)) msgs); unfold ret;
        intros [= <- <-] _; (split; [assumption|]);
        (split; [exists ps; now split|]);
        rewrite generate_calls_emit; lia. }
    destruct (call rt h (request_params req) w) as [[res|e] wc] eqn:Hc.
    + rewrite (loop_body_return _ _ _ _ _ _ _ Hl Hm Hc) in Hb. injection Hb as <- <-.
      rewrite Hquiet in Hne |- *.
      destruct (Hcall _ _ eq_refl Hne) as (Hmeth & (ps & Hps & Hname) & Hg).
      exists req, ps. auto.
    + rewrite (loop_body_raise _ _ _ _ _ _ _ Hl Hm Hc) in Hb. injection Hb as <- <-.
      destruct (Hcall _ _ eq_refl Hne) as (Hmeth & (ps & Hps & Hname) & Hg).
      exists req, ps. auto.
Qed.

(** ** Methods that only answer *)

Lemma read_loop_handler (raw : string) (rest : list string) (w : world) (req : dict)
  (h : handler) :
  raw <> "" ->
  json_loads rt raw = Return (JObj req) ->
  methods_get (request_method req) = Return (Some h) ->
  _read_loop rt (raw :: rest) w =
    match call rt h (request_params req) (emit (Read raw) w) with
    | (Raise e, w1) => Crashed e w1 rest
    | (Return res, w1) =>
        let w2 := emit (Write (result_response res (request_id req))) w1 in
        match h with
        | h_shutdown => Terminated w2 rest
        | _ => _read_loop rt rest w2
        end
    end.
Proof.
  intros Hraw Hreq Hm. rewrite read_loop_line by assumption.
  destruct (call rt h (request_params req) (emit (Read raw) w)) as [[res|e] w1] eqn:Hc.
  - rewrite (loop_body_return _ _ _ _ _ _ _ Hreq Hm Hc).
    rewrite (methods_get_shutdown _ _ Hm). now destruct h.
  - now rewrite (loop_body_raise _ _ _ _ _ _ _ Hreq Hm Hc).
Qed.

(** A ping is answered "pong" whatever its params hold, as long as they
    bind to the handler (a mapping without the key "self"); the server
    object is untouched and the loop goes on.  Params that do not bind end
    the loop with [TypeError] and no response. *)
Theorem ping_ignores_params
  (raw : string) (rest : list string) (w : world) (req : dict) :
  raw <> "" ->
  json_loads rt raw = Return (JObj req) ->
  dict_get "method" req = Some (JStr "ping") ->
  _read_loop rt (raw :: rest) w =
    match kwargs (request_params req) with
    | Return _ =>
        _read_loop rt rest
          (emit (Write (result_response (JStr "pong") (request_id req)))
             (emit (Read raw) w))
    | Raise _ => Crashed TypeError (emit (Read raw) w) rest
    end.
Proof.
  intros Hraw Hreq Hmeth.
  assert (Hm : methods_get (request_method req) = Return (Some h_ping)).
  { unfold request_method. now rewrite Hmeth. }
  rewrite (read_loop_handler _ _ _ _ _ Hraw Hreq Hm).
  unfold call, abind, lift, kwargs.
  destruct (request_params req); try reflexivity.
  now destruct (has_key "self" items).
Qed.

(** [list_tools] answers with the same catalog on every call, whatever the
    params that bind, and changes nothing. *)
Theorem list_tools_is_stable
  (raw : string) (rest : list string) (w : world) (req : dict) :
  raw <> "" ->
  json_loads rt raw = Return (JObj req) ->
  dict_get "method" req = Some (JStr "list_tools") ->
  _read_loop rt (raw :: rest) w =
    match kwargs (request_params req) with
    | Return _ =>
        _read_loop rt rest
          (emit (Write (result_response tools_catalog (request_id req)))
             (emit (Read raw) w))
    | Raise _ => Crashed TypeError (emit (Read raw) w) rest
    end.
Proof.
  intros Hraw Hreq Hmeth.
  assert (Hm : methods_get (request_method req) = Return (Some h_list_tools)).
  { unfold request_method. now rewrite Hmeth. }
  rewrite (read_loop_handler _ _ _ _ _ Hraw Hreq Hm).
  unfold call, abind, lift, kwargs.
  destruct (request_params req); try reflexivity.
  now destruct (has_key "self" items).
Qed.

(** ** Methods that are not names *)


(** A method that is a list or an object cannot be looked up in the
    registry: the lookup raises [TypeError], no response is written and the
    loop ends. *)
Theorem unhashable_method_leaves_loop
  (raw : string) (rest : list string) (w : world) (req : dict) :
  raw <> "" ->
  json_loads rt raw = Return (JObj req) ->
  match request_method req with
  | JArr _ | JObj _ => True
  | _ => False
  end ->
  _read_loop rt (raw :: rest) w = Crashed TypeError (emit (Read raw) w) rest.
Proof.
  intros Hraw Hreq Hmeth.
  assert (Hm : methods_get (request_method req) = Raise TypeError).
  { destruct (request_method req); try contradiction; reflexivity. }
  rewrite read_loop_line by assumption.
  now rewrite (loop_body_unhashable _ _ _ _ Hreq Hm).
Qed.

(** ** Keywords of [invoke_tool] *)

Lemma has_key_false (k : string) (d : dict) :
  ~ In k (dict_keys d) -> has_key k d = false.
Proof.
  intros H. unfold has_key. destruct (existsb _ _) eqn:He; [|reflexivity].
  apply existsb_exists in He as [k' [Hin Hk]]. apply String.eqb_eq in Hk.
  subst. contradiction.
Qed.

(** Params whose keys are "name" and "arguments" and no other, in any
    order, reach the tool: calling the handler through the registry is
    calling [invoke_tool] on the two values. *)
Theorem invoke_tool_keywords_bind (ps : dict) (name arguments : json) (w : world) :
  (forall k, In k (dict_keys ps) -> k = "name" \/ k = "arguments") ->
  dict_get "name" ps = Some name ->
  dict_get "arguments" ps = Some arguments ->
  call rt h_invoke_tool (JObj ps) w = invoke_tool rt name arguments w.
Proof.
  intros Hkeys Hn Ha. unfold call, abind, lift, kwargs.
  rewrite has_key_false.
  2:{ intros Hin. destruct (Hkeys _ Hin); discriminate. }
  unfold bind_name_arguments.
  assert (Hall : forallb (fun k => String.eqb k "name" || String.eqb k "arguments")
                   (dict_keys ps) = true).
  { apply forallb_forall. intros k Hin.
    destruct (Hkeys _ Hin) as [->| ->]; reflexivity. }
  rewrite Hall, Hn, Ha. simpl.
  now destruct (invoke_tool rt name arguments w) as [[res|e] w1].
Qed.

(** ** The add tool *)

(** "add" answers with a float sum or fails with one of four faults of the
    interpreter, never with a declared error; it leaves the world alone. *)
Theorem add_result_or_fault (arguments : json) (w w' : world) (r : result json) :
  invoke_tool rt (JStr "add") arguments w = (r, w') ->
  w' = w
  /\ match r with
     | Return v => exists f, v = JObj [("sum", JFloat f)]
     | Raise e =>
         e = AttributeError \/ e = TypeError \/ e = ValueError \/ e = OverflowError
     end.
Proof.
  unfold invoke_tool, lift. simpl.
  assert (Hf : forall x, match to_float rt x with
                         | Return _ => True
                         | Raise e => e = TypeError \/ e = ValueError \/ e = OverflowError
                         end).
  { intros x. destruct x; simpl; auto.
    - destruct (float_of_int n); auto.
    - destruct (float_of_str rt s); auto. }
  intros [= <- <-]. split; [reflexivity|].
  destruct arguments; simpl; auto.
  pose proof (Hf (match dict_get "a" items with Some x => x | None => JInt 0 end)) as Ha.
  destruct (to_float rt _) as [fa|e]; simpl; [|tauto].
  pose proof (Hf (match dict_get "b" items with Some x => x | None => JInt 0 end)) as Hb.
  destruct (to_float rt _) as [fb|e]; simpl; [|tauto].
  now eexists.
Qed.

(** A missing operand counts as 0: with "b" absent the sum is [float(a)]
    itself (the negative zero apart, which 0.0 turns into 0.0). *)
Theorem add_missing_operand (d : dict) (a : json) (fa : spec_float) (w : world) :
  dict_get "a" d = Some a ->
  dict_get "b" d = None ->
  to_float rt a = Return fa ->
  fa <> S754_zero true ->
  invoke_tool rt (JStr "add") (JObj d) w = (Return (JObj [("sum", JFloat fa)]), w).
Proof.
  intros Ha Hb Hfa Hz. unfold invoke_tool, lift. simpl.
  rewrite Ha, Hb, Hfa. simpl.
  assert (H0 : float_add fa (S754_zero false) = fa).
  { destruct fa as [[|]|[|]| |s m e]; try reflexivity. contradiction. }
  now rewrite H0.
Qed.

(** ** The chat tool *)

Lemma convert_messages_objects (items : list json) :
  forall acc : list lc_message,
    Forall (fun msg => is_object msg = true) items ->
    Forall (fun m => message_fault rt m = None) (flat_map lc_messages_of items) ->
    convert_messages rt items acc = Return (acc ++ flat_map lc_messages_of items).
Proof.
  induction items as [|msg rest IH]; intros acc Hobj Hok.
  - simpl. now rewrite app_nil_r.
  - inversion Hobj as [|? ? Hmsg Hrest]; subst.
    destruct msg as [| | | | | |d]; try discriminate.
    simpl in Hok. apply Forall_app in Hok as [Hhere Hlater].
    cbn [convert_messages py_get flat_map].
    unfold lc_messages_of in *.
    set (role := match dict_get "role" d with Some x => x | None => JNull end) in *.
    set (content := match dict_get "content" d with Some x => x | None => JNull end) in *.
    unfold append_message.
    destruct (eq_str role "system");
      [|destruct (eq_str role "assistant"); [|destruct (eq_str role "user")]].
    + inversion Hhere as [|? ? Hm _]; subst. rewrite Hm.
      rewrite (IH _ Hrest Hlater). now rewrite <- app_assoc.
    + inversion Hhere as [|? ? Hm _]; subst. rewrite Hm.
      rewrite (IH _ Hrest Hlater). now rewrite <- app_assoc.
    + inversion Hhere as [|? ? Hm _]; subst. rewrite Hm.
      rewrite (IH _ Hrest Hlater). now rewrite <- app_assoc.
    + now rewrite (IH _ Hrest Hlater).
Qed.

(** The chat tool hands the model the messages whose role is "system",
    "assistant" or "user", in their order, each with its content; a message
    with any other role, or with none, is dropped without a word.  The model
    is called once and its text comes back under "response"; a fault of the
    model comes back as it is. *)
Theorem chat_hands_known_roles_to_model (d : dict) (items : list json) (w : world) :
  dict_get "messages" d = Some (JArr items) ->
  Forall (fun msg => is_object msg = true) items ->
  Forall (fun m => message_fault rt m = None) (flat_map lc_messages_of items) ->
  invoke_tool rt (JStr "chat") (JObj d) w =
    (match agenerate rt (generate_calls (trace w)) (flat_map lc_messages_of items) with
     | Return text => Return (JObj [("response", JStr text)])
     | Raise e => Raise e
     end,
     emit (Generate (flat_map lc_messages_of items)) w).
Proof.
  intros Hd Hobj Hok. unfold invoke_tool, abind, lift. simpl.
  rewrite Hd. simpl. rewrite (convert_messages_objects _ [] Hobj Hok). simpl.
  unfold call_agenerate.
  now destruct (agenerate rt (generate_calls (trace w)) (flat_map lc_messages_of items)).
Qed.

(** Without "messages" the model is called all the same, on an empty
    conversation. *)
Theorem chat_without_messages_calls_model (d : dict) (w : world) :
  dict_get "messages" d = None ->
  invoke_tool rt (JStr "chat") (JObj d) w =
    (match agenerate rt (generate_calls (trace w)) [] with
     | Return text => Return (JObj [("response", JStr text)])
     | Raise e => Raise e
     end,
     emit (Generate []) w).
Proof.
  intros Hd. unfold invoke_tool, abind, lift. simpl. rewrite Hd. simpl.
  unfold call_agenerate. now destruct (agenerate rt (generate_calls (trace w)) []).
Qed.

Lemma convert_messages_non_object (items : list json) :
  forall acc : list lc_message,
    Exists (fun msg => is_object msg = false) items ->
    exists e, convert_messages rt items acc = Raise e.
Proof.
  induction items as [|msg rest IH]; intros acc H; [inversion H|].
  cbn [convert_messages].
  destruct msg as [| | | | | |d]; try (now exists AttributeError).
  inversion H as [? ? Hmsg|? ? Hrest]; subst; [discriminate|].
  cbn [py_get].
  set (role := match dict_get "role" d with Some x => x | None => JNull end).
  set (content := match dict_get "content" d with Some x => x | None => JNull end).
  match goal with |- context [match ?a with Return _ => _ | Raise _ => _ end] =>
    destruct a as [acc'|e] end.
  - apply IH. assumption.
  - now exists e.
Qed.

(** One message that is not an object fails the whole request: the tool
    raises before it calls the model, and nothing has happened. *)
Theorem chat_rejects_before_calling (d : dict) (items : list json) (w : world) :
  dict_get "messages" d = Some (JArr items) ->
  Exists (fun msg => is_object msg = false) items ->
  exists e, invoke_tool rt (JStr "chat") (JObj d) w = (Raise e, w).
Proof.
  intros Hd Hbad. unfold invoke_tool, abind, lift. simpl. rewrite Hd. simpl.
  destruct (convert_messages_non_object items [] Hbad) as [e ->]. now exists e.
Qed.

(** ** The catalog and the tools behind it *)

Lemma to_float_fault (x : json) (e : exn) :
  to_float rt x = Raise e -> is_declared e = false.
Proof.
  destruct x; simpl; try (now intros [= <-]).
  - destruct (float_of_int n); now intros [= <-].
  - destruct (float_of_str rt s); now intros [= <-].
Qed.

Lemma convert_messages_fault (items : list json) :
  forall (acc : list lc_message) (e : exn),
    (forall m e', message_fault rt m = Some e' -> is_declared e' = false) ->
    convert_messages rt items acc = Raise e -> is_declared e = false.
Proof.
  induction items as [|msg rest IH]; intros acc e Hrt; [discriminate|].
  cbn [convert_messages].
  destruct msg as [| | | | | |d]; try (now intros [= <-]).
  cbn [py_get].
  set (role := match dict_get "role" d with Some x => x | None => JNull end).
  set (content := match dict_get "content" d with Some x => x | None => JNull end).
  unfold append_message.
  destruct (eq_str role "system");
    [|destruct (eq_str role "assistant"); [|destruct (eq_str role "user")]];
    try (match goal with |- context [message_fault rt ?m] =>
           destruct (message_fault rt m) as [e'|] eqn:Hm;
           [intros [= <-]; now apply (Hrt _ _ Hm)|]
         end);
    now apply IH.
Qed.

(** The catalog of [list_tools] and the dispatch of [invoke_tool] agree: as
    long as the backend raises no [JsonRpcError] of its own, a tool name is
    refused with a declared error exactly when the catalog does not
    advertise it. *)
Theorem catalog_matches_dispatch (name : string) (arguments : json) (w : world) :
  backend_undeclared rt ->
  raised_declared (fst (invoke_tool rt (JStr name) arguments w)) = true
  <-> ~ In name (tool_names tools_catalog).
Proof.
  intros [Hmsg Hgen].
  change (tool_names tools_catalog) with ["echo"; "add"; "chat"].
  unfold invoke_tool, eq_str.
  destruct (String.eqb_spec name "echo") as [->|He].
  { split; [|intros H; exfalso; apply H; simpl; tauto].
    unfold lift. destruct arguments; discriminate. }
  destruct (String.eqb_spec name "add") as [->|Ha].
  { split; [|intros H; exfalso; apply H; simpl; tauto].
    unfold lift. destruct arguments; try discriminate. simpl.
    match goal with |- context [to_float rt ?x] =>
      destruct (to_float rt x) as [fa|e] eqn:Hfa; simpl end.
    2:{ rewrite (to_float_fault _ _ Hfa). discriminate. }
    match goal with |- context [to_float rt ?x] =>
      destruct (to_float rt x) as [fb|e] eqn:Hfb; simpl end.
    2:{ rewrite (to_float_fault _ _ Hfb). discriminate. }
    discriminate. }
  destruct (String.eqb_spec name "chat") as [->|Hc].
  { split; [|intros H; exfalso; apply H; simpl; tauto].
    unfold abind, lift.
    destruct arguments; try discriminate. simpl.
    destruct (py_iter _) as [items'|e] eqn:Hit; simpl.
    2:{ destruct (match dict_get "messages" items with Some x => x | None => JArr [] end);
          simpl in Hit; try discriminate; injection Hit as <-; discriminate. }
    destruct (convert_messages rt items' []) as [msgs|e] eqn:Hconv; simpl.
    2:{ rewrite (convert_messages_fault _ _ _ Hmsg Hconv). discriminate. }
    unfold call_agenerate.
    destruct (agenerate rt (generate_calls (trace w)) msgs) as [text|e] eqn:Hg; simpl.
    - discriminate.
    - rewrite (Hgen _ _ _ Hg). discriminate. }
  split; [|reflexivity].
  intros _ [H|[H|[H|[]]]]; congruence.
Qed.

End Runs.

(** ** [is_pip_install] *)

Lemma prefix_iff (sub s : string) :
  String.prefix sub s = true <-> exists after, s = (sub ++ after)%string.
Proof.
  revert s. induction sub as [|a sub IH]; intros s; simpl.
  - destruct s; split; eauto.
  - destruct s as [|b s]; simpl.
    + split; [discriminate | intros [after H]; discriminate].
    + destruct (ascii_dec a b) as [->|Hne].
      * rewrite IH. split; intros [after H]; exists after; congruence.
      * split; [discriminate | intros [after H]; congruence].
Qed.

Lemma contains_iff (s sub : string) :
  contains s sub = true <-> exists before after, s = (before ++ sub ++ after)%string.
Proof.
  induction s as [|c s IH]; cbn [contains].
  - rewrite orb_false_r, prefix_iff. split.
    + intros [after H]. now exists "", after.
    + intros (before & after & H). destruct before; [now exists after | discriminate].
  - rewrite orb_true_iff, prefix_iff, IH. split.
    + intros [[after H]|(before & after & H)].
      * now exists "", after.
      * exists (String c before), after. cbn [append]. now rewrite H.
    + intros (before & after & H). destruct before as [|c' before].
      * left. now exists after.
      * right. exists before, after. cbn [append] in H. congruence.
Qed.

Lemma endswith_iff (s suffix : string) :
  endswith s suffix = true <-> exists before, s = (before ++ suffix)%string.
Proof.
  induction s as [|c s IH]; cbn [endswith].
  - rewrite orb_false_r, String.eqb_eq. split.
    + intros <-. now exists "".
    + intros [before H]. destruct before; [assumption | discriminate].
  - rewrite orb_true_iff, String.eqb_eq, IH. split.
    + intros [<-|[before H]].
      * now exists "".
      * exists (String c before). cbn [append]. now rewrite H.
    + intros [before H]. destruct before as [|c' before].
      * now left.
      * right. exists before. cbn [append] in H. congruence.
Qed.

(** [is_pip_install] answers [True] exactly when the file name of some
    frame has "pip" somewhere in it: the test on the end of the name adds
    nothing to the test on the whole name, and a name such as
    "pipeline.py" counts as well. *)
Theorem is_pip_install_iff (stack : list string) :
  is_pip_install stack = true
  <-> exists filename before after,
        In filename stack /\ filename = (before ++ "pip" ++ after)%string.
Proof.
  induction stack as [|f frames IH]; cbn [is_pip_install In].
  - split; [discriminate | intros (? & ? & ? & [] & _)].
  - destruct (endswith f "pip" || contains f "pip") eqn:Hf.
    + split; [intros _|reflexivity].
      apply orb_true_iff in Hf as [Hf|Hf].
      * apply endswith_iff in Hf as [before ->].
        exists (before ++ "pip")%string, before, "". split; [now left | reflexivity].
      * apply contains_iff in Hf as (before & after & ->).
        exists (before ++ "pip" ++ after)%string, before, after. split; [now left | reflexivity].
    + rewrite IH. apply orb_false_iff in Hf as [_ Hf].
      split; intros (filename & before & after & Hin & Heq).
      * exists filename, before, after. split; [now right | assumption].
      * destruct Hin as [<-|Hin].
        -- assert (Hc : contains f "pip" = true)
             by (apply contains_iff; now exists before, after).
           congruence.
        -- exists filename, before, after. now split.
Qed.

(** ** Integers that are added exactly *)

Section Exact.

Local Open Scope Z_scope.

Variable rt : Runtime.

Lemma digits2_pos_bounds (p : positive) :
  2 ^ (Zpos (digits2_pos p) - 1) <= Zpos p < 2 ^ Zpos (digits2_pos p).
Proof.
  induction p as [p IH|p IH|]; cbn [digits2_pos].
  - rewrite Pos2Z.inj_succ.
    replace (Z.succ (Zpos (digits2_pos p)) - 1) with (Z.succ (Zpos (digits2_pos p) - 1)) by lia.
    rewrite !Z.pow_succ_r by lia. lia.
  - rewrite Pos2Z.inj_succ.
    replace (Z.succ (Zpos (digits2_pos p)) - 1) with (Z.succ (Zpos (digits2_pos p) - 1)) by lia.
    rewrite !Z.pow_succ_r by lia. lia.
  - simpl. lia.
Qed.

Lemma digits2_pos_unique (p : positive) (k : Z) :
  2 ^ (k - 1) <= Zpos p < 2 ^ k -> Zpos (digits2_pos p) = k.
Proof.
  intros [Hlo Hhi]. pose proof (digits2_pos_bounds p) as [Hlo' Hhi'].
  assert (0 < k).
  { destruct (Z_lt_le_dec 0 k); [assumption|].
    assert (2 ^ k <= 2 ^ 0) by (apply Z.pow_le_mono_r; lia). simpl in *. lia. }
  destruct (Z_lt_le_dec (Zpos (digits2_pos p)) k) as [Hlt|Hge].
  - assert (2 ^ Zpos (digits2_pos p) <= 2 ^ (k - 1)) by (apply Z.pow_le_mono_r; lia). lia.
  - destruct (Z_lt_le_dec k (Zpos (digits2_pos p))) as [Hlt|Hle]; [|lia].
    assert (2 ^ k <= 2 ^ (Zpos (digits2_pos p) - 1)) by (apply Z.pow_le_mono_r; lia). lia.
Qed.

Lemma shiftl_value (n : positive) (K : N) :
  Zpos (Pos.shiftl n K) = Zpos n * 2 ^ Z.of_N K.
Proof.
  destruct K as [|k]; [simpl; lia|]. simpl Pos.shiftl. 
  induction k using Pos.peano_ind.
  - simpl. lia.
  - rewrite Pos.iter_succ. rewrite Pos2Z.inj_xO, IHk.
    change (Z.of_N (N.pos (Pos.succ k))) with (Zpos (Pos.succ k)).
    change (Z.of_N (N.pos k)) with (Zpos k).
    rewrite Pos2Z.inj_succ, Z.pow_succ_r by lia. lia.
Qed.

Lemma digits2_pos_shiftl (n : positive) (K : N) :
  Zpos (digits2_pos (Pos.shiftl n K)) = Zpos (digits2_pos n) + Z.of_N K.
Proof.
  apply digits2_pos_unique. rewrite shiftl_value.
  pose proof (digits2_pos_bounds n) as [Hlo Hhi].
  pose proof (Pos2Z.is_pos (digits2_pos n)).
  pose proof (N2Z.is_nonneg K).
  replace (Zpos (digits2_pos n) + Z.of_N K - 1) with (Zpos (digits2_pos n) - 1 + Z.of_N K) by lia.
  rewrite !Z.pow_add_r by lia.
  assert (0 < 2 ^ Z.of_N K) by (apply Z.pow_pos_nonneg; lia).
  split; nia.
Qed.

Lemma iter_pos_comm {A : Type} (f : A -> A) (p : positive) (x : A) :
  iter_pos f p (f x) = f (iter_pos f p x).
Proof.
  revert x. induction p as [p IH|p IH|]; intros x; simpl.
  - now rewrite !IH.
  - now rewrite !IH.
  - reflexivity.
Qed.

Lemma iter_pos_succ {A : Type} (f : A -> A) (p : positive) (x : A) :
  iter_pos f (Pos.succ p) x = f (iter_pos f p x).
Proof.
  revert x. induction p as [p IH|p IH|]; intros x; simpl.
  - rewrite !IH. now rewrite !iter_pos_comm.
  - now rewrite !iter_pos_comm.
  - reflexivity.
Qed.

Lemma shr_exact (q : positive) (j : positive) :
  iter_pos shr_1 j {| shr_m := Zpos (Pos.iter xO q j); shr_r := false; shr_s := false |}
  = {| shr_m := Zpos q; shr_r := false; shr_s := false |}.
Proof.
  induction j using Pos.peano_ind.
  - reflexivity.
  - rewrite Pos.iter_succ. rewrite iter_pos_succ, <- iter_pos_comm. simpl. exact IHj.
Qed.

Lemma binary_round_aux_exact (s : bool) (q : positive) (j : N) (e : Z) :
  Zpos (digits2_pos q) = 53 ->
  -1074 <= e <= 971 ->
  binary_round_aux prec emax s (Zpos (Pos.shiftl q j)) (e - Z.of_N j) loc_Exact
  = S754_finite s q e.
Proof.
  intros Hd He. unfold binary_round_aux, shr_fexp.
  cbn [Zdigits2]. rewrite digits2_pos_shiftl, Hd.
  assert (Hf : forall x, x = 53 + e -> fexp prec emax x = e).
  { intros x ->. unfold fexp, emin, prec, emax. lia. }
  rewrite (Hf (53 + Z.of_N j + (e - Z.of_N j))) by lia.
  replace (e - (e - Z.of_N j)) with (Z.of_N j) by lia.
  cbn [shr_record_of_loc].
  assert (Hshr : shr {| shr_m := Zpos (Pos.shiftl q j); shr_r := false; shr_s := false |}
                     (e - Z.of_N j) (Z.of_N j)
                 = ({| shr_m := Zpos q; shr_r := false; shr_s := false |}, e)).
  { destruct j as [|j]; simpl.
    - f_equal. lia.
    - rewrite shr_exact. f_equal. lia. }
  rewrite Hshr. cbn [shr_m loc_of_shr_record round_nearest_even Zdigits2].
  rewrite Hd, (Hf (53 + e)) by lia. rewrite Z.sub_diag. cbn [shr shr_record_of_loc shr_m].
  destruct (Z.leb_spec e (emax - prec)); [reflexivity|]. unfold emax, prec in *. lia.
Qed.

Lemma shiftl_shiftl (n : positive) (a b : N) :
  Pos.shiftl (Pos.shiftl n a) b = Pos.shiftl n (a + b).
Proof.
  apply Pos2Z.inj. rewrite !shiftl_value, N2Z.inj_add, Z.pow_add_r by apply N2Z.is_nonneg.
  lia.
Qed.

Lemma binary_round_small (s : bool) (n : positive) (K : N) :
  Zpos n < 2 ^ 53 ->
  binary_round prec emax s (Pos.shiftl n K) (- Z.of_N K) = canon s n.
Proof.
  intros Hn. unfold binary_round, canon.
  pose proof (digits2_pos_bounds n) as [Hlo Hhi].
  pose proof (Pos2Z.is_pos (digits2_pos n)) as Hpos.
  set (d := Zpos (digits2_pos n)) in *.
  assert (Hd : d <= 53).
  { destruct (Z_lt_le_dec 53 d); [|assumption].
    assert (2 ^ 53 <= 2 ^ (d - 1)) by (apply Z.pow_le_mono_r; lia). lia. }
  rewrite digits2_pos_shiftl. fold d.
  assert (Hf : fexp prec emax (d + Z.of_N K + - Z.of_N K) = d - 53).
  { unfold fexp, emin, prec, emax. lia. }
  rewrite Hf.
  set (q := Pos.shiftl n (Z.to_N (53 - d))).
  assert (Hq : Zpos (digits2_pos q) = 53).
  { unfold q. rewrite digits2_pos_shiftl. fold d. rewrite Z2N.id; lia. }
  unfold shl_align.
  destruct (d - 53 - - Z.of_N K) as [|j|j] eqn:Ej.
  - (* aligned already *)
    replace (- Z.of_N K) with ((d - 53) - Z.of_N 0) by lia.
    replace (Pos.shiftl n K) with (Pos.shiftl q 0).
    + apply binary_round_aux_exact; [assumption | lia].
    + simpl. unfold q. f_equal. apply N2Z.inj. rewrite Z2N.id; lia.
  - (* more bits than the format holds: they are zeros *)
    replace (- Z.of_N K) with ((d - 53) - Z.of_N (N.pos j)) by lia.
    replace (Pos.shiftl n K) with (Pos.shiftl q (N.pos j)).
    + apply binary_round_aux_exact; [assumption | lia].
    + unfold q. rewrite shiftl_shiftl. f_equal. apply N2Z.inj.
      rewrite N2Z.inj_add, Z2N.id by lia. lia.
  - (* fewer bits: shift left *)
    change (Pos.iter xO (Pos.shiftl n K) j) with (Pos.shiftl (Pos.shiftl n K) (N.pos j)).
    rewrite shiftl_shiftl.
    replace (Pos.shiftl n (K + N.pos j)) with (Pos.shiftl q 0).
    + replace (d - 53) with ((d - 53) - Z.of_N 0) at 1 by lia.
      apply binary_round_aux_exact; [assumption | lia].
    + simpl. unfold q. f_equal. apply N2Z.inj.
      rewrite N2Z.inj_add, Z2N.id by lia. lia.
Qed.

Lemma float_of_int_canon (z : Z) :
  Z.abs z < 2 ^ 53 ->
  float_of_int z = match z with
                   | Z0 => S754_zero false
                   | Zpos n => canon false n
                   | Zneg n => canon true n
                   end.
Proof.
  intros Hz. destruct z as [|n|n]; [reflexivity| |].
  - exact (binary_round_small false n 0 Hz).
  - exact (binary_round_small true n 0 Hz).
Qed.

Lemma shl_align_value (m : positive) (e e' : Z) :
  e' <= e ->
  Zpos (fst (shl_align m e e')) = Zpos m * 2 ^ (e - e')
  /\ snd (shl_align m e e') = e'.
Proof.
  intros He. unfold shl_align. destruct (e' - e) as [|j|j] eqn:Ej.
  - replace (e - e') with 0 by lia. simpl. split; lia.
  - lia.
  - cbn [fst snd]. change (Pos.iter xO m j) with (Pos.shiftl m (N.pos j)).
    rewrite shiftl_value. split; [|reflexivity]. f_equal. f_equal. lia.
Qed.

Lemma binary_normalize_small (z : Z) (K : N) :
  Z.abs z < 2 ^ 53 ->
  binary_normalize prec emax (z * 2 ^ Z.of_N K) (- Z.of_N K) false = float_of_int z.
Proof.
  intros Hz. rewrite (float_of_int_canon z Hz).
  assert (Hp : 0 < 2 ^ Z.of_N K) by (apply Z.pow_pos_nonneg; lia).
  destruct z as [|n|n].
  - reflexivity.
  - rewrite <- shiftl_value. cbn [binary_normalize]. now apply binary_round_small.
  - replace (Zneg n * 2 ^ Z.of_N K) with (- (Zpos n * 2 ^ Z.of_N K)) by lia.
    rewrite <- shiftl_value. cbn [binary_normalize Z.opp]. now apply binary_round_small.
Qed.

Lemma canon_add (sa sb : bool) (a b : positive) :
  Zpos a < 2 ^ 53 -> Zpos b < 2 ^ 53 ->
  Z.abs (signed sa a + signed sb b) < 2 ^ 53 ->
  float_add (canon sa a) (canon sb b) = float_of_int (signed sa a + signed sb b).
Proof.
  intros Ha Hb Hab. unfold float_add, canon, SFadd.
  set (da := Zpos (digits2_pos a)). set (db := Zpos (digits2_pos b)).
  set (ma := Pos.shiftl a (Z.to_N (53 - da))). set (mb := Pos.shiftl b (Z.to_N (53 - db))).
  assert (Hda : 0 < da <= 53).
  { pose proof (digits2_pos_bounds a) as [Hlo _]. fold da in Hlo. split; [unfold da; lia|].
    destruct (Z_lt_le_dec 53 da); [|assumption].
    assert (2 ^ 53 <= 2 ^ (da - 1)) by (apply Z.pow_le_mono_r; lia). lia. }
  assert (Hdb : 0 < db <= 53).
  { pose proof (digits2_pos_bounds b) as [Hlo _]. fold db in Hlo. split; [unfold db; lia|].
    destruct (Z_lt_le_dec 53 db); [|assumption].
    assert (2 ^ 53 <= 2 ^ (db - 1)) by (apply Z.pow_le_mono_r; lia). lia. }
  set (ez := Z.min (da - 53) (db - 53)).
  destruct (shl_align_value ma (da - 53) ez ltac:(unfold ez; lia)) as [Hva _].
  destruct (shl_align_value mb (db - 53) ez ltac:(unfold ez; lia)) as [Hvb _].
  unfold ma in Hva. unfold mb in Hvb. rewrite shiftl_value, Z2N.id in Hva, Hvb by lia.
  rewrite <- Z.mul_assoc, <- Z.pow_add_r in Hva, Hvb by (unfold ez; lia).
  replace (53 - da + (da - 53 - ez)) with (- ez) in Hva by lia.
  replace (53 - db + (db - 53 - ez)) with (- ez) in Hvb by lia.
  fold ma in Hva. fold mb in Hvb.
  assert (Hsum : cond_Zopp sa (Zpos (fst (shl_align ma (da - 53) ez)))
                 + cond_Zopp sb (Zpos (fst (shl_align mb (db - 53) ez)))
                 = (signed sa a + signed sb b) * 2 ^ Z.of_N (Z.to_N (- ez))).
  { rewrite Hva, Hvb, Z2N.id by (unfold ez; lia).
    unfold cond_Zopp, signed. destruct sa, sb; lia. }
  rewrite Hsum. replace ez with (- Z.of_N (Z.to_N (- ez))) at 2
    by (rewrite Z2N.id; unfold ez; lia).
  now apply binary_normalize_small.
Qed.

Lemma float_add_exact (a b : Z) :
  Z.abs a < 2 ^ 53 -> Z.abs b < 2 ^ 53 -> Z.abs (a + b) < 2 ^ 53 ->
  float_add (float_of_int a) (float_of_int b) = float_of_int (a + b).
Proof.
  intros Ha Hb Hab.
  rewrite (float_of_int_canon a Ha), (float_of_int_canon b Hb).
  destruct a as [|a|a], b as [|b|b]; try reflexivity;
    try (rewrite float_of_int_canon by assumption; reflexivity).
  - now apply (canon_add false false).
  - now apply (canon_add false true).
  - now apply (canon_add true false).
  - now apply (canon_add true true).
Qed.

Lemma float_integer_canon (s : bool) (n : positive) :
  Zpos n < 2 ^ 53 -> float_integer (canon s n) = Some (signed s n).
Proof.
  intros Hn. unfold canon, float_integer.
  pose proof (digits2_pos_bounds n) as [Hlo _].
  set (d := Zpos (digits2_pos n)) in *.
  assert (Hd : 0 < d <= 53).
  { split; [unfold d; lia|]. destruct (Z_lt_le_dec 53 d); [|assumption].
    assert (2 ^ 53 <= 2 ^ (d - 1)) by (apply Z.pow_le_mono_r; lia). lia. }
  assert (Hv : (if s then Zneg (Pos.shiftl n (Z.to_N (53 - d)))
                else Zpos (Pos.shiftl n (Z.to_N (53 - d))))
               = signed s n * 2 ^ (53 - d)).
  { pose proof (shiftl_value n (Z.to_N (53 - d))) as H. rewrite Z2N.id in H by lia.
    unfold signed. destruct s; lia. }
  rewrite Hv.
  assert (Hp : 0 < 2 ^ (53 - d)) by (apply Z.pow_pos_nonneg; lia).
  destruct (Z.leb_spec 0 (d - 53)).
  - replace (d - 53) with 0 by lia. replace (53 - d) with 0 by lia. f_equal. simpl. lia.
  - replace (- (d - 53)) with (53 - d) by lia.
    rewrite Z.mod_mul by lia. rewrite Z.eqb_refl. now rewrite Z.div_mul by lia.
Qed.

Lemma float_integer_of_int (z : Z) :
  Z.abs z < 2 ^ 53 -> float_integer (float_of_int z) = Some z.
Proof.
  intros Hz. rewrite (float_of_int_canon z Hz). destruct z as [|n|n].
  - reflexivity.
  - exact (float_integer_canon false n Hz).
  - exact (float_integer_canon true n Hz).
Qed.

Lemma to_float_small (z : Z) :
  Z.abs z < 2 ^ 53 -> to_float rt (JInt z) = Return (float_of_int z).
Proof.
  intros Hz. cbn [to_float]. rewrite (float_of_int_canon z Hz).
  now destruct z.
Qed.

(** Below 2^53 the tool adds integers exactly: when [a], [b] and [a + b]
    are all smaller than 2^53 in magnitude, the sum returned is the double
    of [a + b], and that double compares equal to the integer [a + b]. *)
Theorem add_is_exact_below_2_53 (a b : Z) (w : world) :
  Z.abs a < 2 ^ 53 -> Z.abs b < 2 ^ 53 -> Z.abs (a + b) < 2 ^ 53 ->
  invoke_tool rt (JStr "add") (JObj [("a", JInt a); ("b", JInt b)]) w
    = (Return (JObj [("sum", JFloat (float_of_int (a + b)))]), w)
  /\ num_eq (JFloat (float_of_int (a + b))) (JInt (a + b)) = true.
Proof.
  intros Ha Hb Hab. split.
  - unfold invoke_tool, lift. cbn [eq_str String.eqb Ascii.eqb Bool.eqb py_get dict_get bind].
    simpl dict_get.
    rewrite (to_float_small a Ha). cbn [bind].
    rewrite (to_float_small b Hb). cbn [bind].
    now rewrite (float_add_exact a b Ha Hb Hab).
  - unfold num_eq. rewrite (float_integer_of_int _ Hab). apply Z.eqb_refl.
Qed.

End Exact.

(** * The further properties on concrete lines *)

Lemma end_of_input_keeps_polling_witness :
  _read_loop test_runtime [""; ""] fresh =
    Polling {| self := self fresh; trace := [Read ""; Sleep; Read ""; Sleep] |}.
Proof.
  apply (end_of_input_keeps_polling test_runtime [""; ""] fresh).
  repeat constructor.
Defined.

Lemma empty_reads_are_invisible_witness :
  same_outcome (_read_loop test_runtime [""; ping_line; ""; shutdown_line; ""] fresh)
               (_read_loop test_runtime [ping_line; shutdown_line] fresh).
Proof.
  apply (empty_reads_are_invisible test_runtime [""; ping_line; ""; shutdown_line; ""]
           fresh fresh).
  repeat split.
Defined.

Lemma only_chat_calls_the_model_witness :
  exists req ps,
    json_loads test_runtime chat_line = Return (JObj req)
    /\ request_method req = JStr "invoke_tool"
    /\ request_params req = JObj ps
    /\ dict_get "name" ps = Some (JStr "chat")
    /\ generate_calls (trace (snd (loop_body test_runtime chat_line fresh)))
       = S (generate_calls (trace fresh)).
Proof.
  apply (only_chat_calls_the_model test_runtime chat_line fresh
           (snd (loop_body test_runtime chat_line fresh))
           (fst (loop_body test_runtime chat_line fresh))).
  - vm_compute; reflexivity.
  - vm_compute. discriminate.
Defined.

Lemma ping_ignores_params_witness :
  _read_loop test_runtime [ping_line; shutdown_line] fresh =
    _read_loop test_runtime [shutdown_line]
      (emit (Write (result_response (JStr "pong") (JStr "req-7")))
         (emit (Read ping_line) fresh)).
Proof.
  apply (ping_ignores_params test_runtime ping_line [shutdown_line] fresh ping_request).
  - discriminate.
  - vm_compute; reflexivity.
  - reflexivity.
Defined.

Lemma list_tools_is_stable_witness :
  _read_loop test_runtime [list_tools_line; shutdown_line] fresh =
    _read_loop test_runtime [shutdown_line]
      (emit (Write (result_response tools_catalog (JInt 1)))
         (emit (Read list_tools_line) fresh)).
Proof.
  apply (list_tools_is_stable test_runtime list_tools_line [shutdown_line] fresh
           list_tools_request).
  - discriminate.
  - vm_compute; reflexivity.
  - reflexivity.
Defined.


Lemma unhashable_method_leaves_loop_witness :
  _read_loop test_runtime [list_method_line; shutdown_line] fresh
  = Crashed TypeError (emit (Read list_method_line) fresh) [shutdown_line].
Proof.
  apply (unhashable_method_leaves_loop test_runtime list_method_line [shutdown_line]
           fresh list_method_request).
  - discriminate.
  - vm_compute; reflexivity.
  - exact I.
Defined.

Lemma invoke_tool_keywords_bind_witness :
  call test_runtime h_invoke_tool
       (JObj [("arguments", JObj [("message", JStr "hi")]); ("name", JStr "echo")]) fresh
  = invoke_tool test_runtime (JStr "echo") (JObj [("message", JStr "hi")]) fresh.
Proof.
  apply (invoke_tool_keywords_bind test_runtime
           [("arguments", JObj [("message", JStr "hi")]); ("name", JStr "echo")]).
  - simpl. intros k [<-|[<-|[]]]; [now right | now left].
  - reflexivity.
  - reflexivity.
Defined.

Lemma add_result_or_fault_witness :
  fresh = fresh
  /\ (TypeError = AttributeError \/ TypeError = TypeError
      \/ TypeError = ValueError \/ TypeError = OverflowError).
Proof.
  apply (add_result_or_fault test_runtime (JObj [("a", JNull); ("b", JInt 1)])
           fresh fresh (Raise TypeError)).
  reflexivity.
Defined.

Lemma add_missing_operand_witness :
  invoke_tool test_runtime (JStr "add") (JObj [("a", JInt 5)]) fresh
  = (Return (JObj [("sum", JFloat (float_of_int 5))]), fresh).
Proof.
  apply (add_missing_operand test_runtime [("a", JInt 5)] (JInt 5) (float_of_int 5) fresh).
  - reflexivity.
  - reflexivity.
  - reflexivity.
  - discriminate.
Defined.

Lemma chat_hands_known_roles_to_model_witness :
  invoke_tool test_runtime (JStr "chat") (JObj [("messages", JArr chat_messages)]) fresh
  = (Return (JObj [("response", JStr "Hello from the model")]),
     emit (Generate [SystemMessage (JStr "Be brief."); HumanMessage (JStr "Hi")]) fresh).
Proof.
  apply (chat_hands_known_roles_to_model test_runtime
           [("messages", JArr chat_messages)] chat_messages fresh).
  - reflexivity.
  - repeat constructor.
  - repeat constructor.
Defined.

Lemma chat_without_messages_calls_model_witness :
  invoke_tool test_runtime (JStr "chat") (JObj []) fresh
  = (Return (JObj [("response", JStr "Hello from the model")]),
     emit (Generate []) fresh).
Proof.
  apply (chat_without_messages_calls_model test_runtime [] fresh).
  reflexivity.
Defined.

Lemma chat_rejects_before_calling_witness :
  exists e,
    invoke_tool test_runtime (JStr "chat")
      (JObj [("messages", JArr [JObj [("role", JStr "user")]; JStr "hi"])]) fresh
    = (Raise e, fresh).
Proof.
  apply (chat_rejects_before_calling test_runtime
           [("messages", JArr [JObj [("role", JStr "user")]; JStr "hi"])]
           [JObj [("role", JStr "user")]; JStr "hi"] fresh).
  - reflexivity.
  - right. left. reflexivity.
Defined.

Lemma catalog_matches_dispatch_witness :
  raised_declared (fst (invoke_tool test_runtime (JStr "resize") (JObj []) fresh)) = true
  <-> ~ In "resize" (tool_names tools_catalog).
Proof.
  apply (catalog_matches_dispatch test_runtime "resize" (JObj []) fresh).
  split.
  - intros m e H. discriminate.
  - intros n msgs e H. discriminate.
Defined.

Lemma add_is_exact_below_2_53_witness :
  invoke_tool test_runtime (JStr "add") (JObj [("a", JInt 40); ("b", JInt 2)]) fresh
    = (Return (JObj [("sum", JFloat (float_of_int 42))]), fresh)
  /\ num_eq (JFloat (float_of_int 42)) (JInt 42) = true.
Proof.
  apply (add_is_exact_below_2_53 test_runtime 40 2 fresh); reflexivity.
Defined.

(** * The whole output of a run *)

(** From the handshake to the end: what [run] writes is the handshake
    followed by the answers to the lines it consumed, one per line and in
    their order (the line a fault ended the loop at has none). *)
Theorem run_writes_handshake_then_answers (rt : Runtime) (stdin : list string) (w : world) :
  exists consumed frames,
    stdin = consumed ++ unread_of (run rt stdin w)
    /\ written (trace (final_world (run rt stdin w)))
       = written (trace w) ++ handshake :: frames
    /\ match run rt stdin w with
       | Crashed _ _ _ =>
           exists answered bad,
             lines_of consumed = answered ++ [bad]
             /\ Forall2 (answers rt) answered frames
       | _ => Forall2 (answers rt) (lines_of consumed) frames
       end.
Proof.
  unfold run, send_handshake, write.
  destruct (read_loop_answers rt stdin (emit (Write handshake) w))
    as (consumed & frames & Hs & Hw & Hf).
  exists consumed, frames. split; [assumption|]. split; [|assumption].
  rewrite Hw, written_emit, <- app_assoc. reflexivity.
Qed.
